(** * trapsim-notebooks: the BemSolver potential-field driver

    A shallow embedding of [bemsolver/compute.cpp] (the ROOT macro
    [compute], with its helpers [parse_param] and [read_grid_info]) and of
    [simulate.cpp] ([compute_potential]), together with the properties of
    the driver that the specification states.

    Conventions.
    - [std::string] is [string]; [size_t] is a [Z] in [[0, 2^64)] with the
      wrap-around written out ([npos] is [2^64 - 1]).
    - [int] is a [Z] in [[-2^31, 2^31)]; signed overflow is taken to wrap.
    - [double] is Rocq's primitive binary64 [float].
    - [std::set<int>] is [gset Z]; the output files are a [gmap] from file
      names to the values written, one per line.
    - [stm >> val] either extracts a value or sets failbit; the code never
      looks at failbit, and what [val] holds after a failed extraction
      (zero, or whatever it held before) is left open.
    - The BEM solver library (D3ImportedElectrodes, D3world) is external:
      every call that builds or configures the world is recorded, in
      order, and the two calls whose result the driver uses ([Import],
      [calc_slow]) are answered by an oracle that sees the calls made so
      far. Whether the library finds its cache on disk is its own affair
      and is not modelled. *)

From Stdlib Require Import ZArith Ascii String List Lia Bool.
From Stdlib Require Import PrimFloat FloatOps SpecFloat FloatAxioms Uint63.
From stdpp Require Import base option list gmap strings pretty.

Local Open Scope string_scope.
Local Open Scope Z_scope.

#[local] Set Warnings "-inexact-float".

(** ** std::string *)

Module Str.

Definition size_max : Z := 2 ^ 64.

(** [std::string::npos], the largest [size_t]. *)
Definition npos : Z := size_max - 1.

(** Arithmetic on [size_t] is modulo [2^64]. *)
Definition wrap (z : Z) : Z := z mod size_max.

Definition size (s : string) : Z := Z.of_nat (String.length s).

Definition TAB : ascii := "009"%char.
Definition LF : ascii := "010"%char.

(** The literal [" \t"]. *)
Definition blanks : string := String " "%char (String TAB "").

Fixpoint mem (c : ascii) (chars : string) : bool :=
  match chars with
  | EmptyString => false
  | String a chars' => Ascii.eqb a c || mem c chars'
  end.

(** Index of the first character satisfying [p]. *)
Fixpoint first_index (p : ascii -> bool) (s : string) : option nat :=
  match s with
  | EmptyString => None
  | String c s' => if p c then Some O else S <$> first_index p s'
  end.

(** Index of the last character satisfying [p]. *)
Fixpoint last_index (p : ascii -> bool) (s : string) : option nat :=
  match s with
  | EmptyString => None
  | String c s' =>
      match last_index p s' with
      | Some i => Some (S i)
      | None => if p c then Some O else None
      end
  end.

(** A search result as a [size_t]: the index, or [npos]. *)
Definition pos_of (o : option nat) : Z :=
  match o with
  | Some i => Z.of_nat i
  | None => npos
  end.

(** [s.find(c)] *)
Definition find (s : string) (c : ascii) : Z :=
  pos_of (first_index (Ascii.eqb c) s).

(** [s.find_first_not_of(chars)] *)
Definition find_first_not_of (s chars : string) : Z :=
  pos_of (first_index (fun c => negb (mem c chars)) s).

(** [s.find_last_not_of(chars)] *)
Definition find_last_not_of (s chars : string) : Z :=
  pos_of (last_index (fun c => negb (mem c chars)) s).

Fixpoint drop (n : nat) (s : string) : string :=
  match n, s with
  | O, _ => s
  | S n', EmptyString => EmptyString
  | S n', String _ s' => drop n' s'
  end.

Fixpoint take (n : nat) (s : string) : string :=
  match n, s with
  | O, _ => EmptyString
  | S n', EmptyString => EmptyString
  | S n', String c s' => String c (take n' s')
  end.

(** [s.substr(pos, count)]: [None] stands for the [std::out_of_range]
    that is thrown when [pos > s.size()]; otherwise the characters
    [[pos, pos + min(count, size - pos))]. *)
Definition substr (s : string) (pos count : Z) : option string :=
  if size s <? pos then None
  else Some (take (Z.to_nat (Z.min count (size s - pos))) (drop (Z.to_nat pos) s)).

End Str.

(** ** std::ifstream and std::getline *)

Record ifstream := Ifstream {
  buf : string;   (* the characters not yet read *)
  good : bool     (* no failbit / eofbit is set *)
}.

(** [std::ifstream in(f)]: a missing or unreadable file leaves the stream
    in a failed state. *)
Definition ifstream_open (file : option string) : ifstream :=
  match file with
  | Some content => Ifstream content true
  | None => Ifstream "" false
  end.

(** The characters up to the next line feed, and what follows it; [None]
    when the end of the input is reached first. *)
Fixpoint read_line (s : string) : string * option string :=
  match s with
  | EmptyString => (EmptyString, None)
  | String c s' =>
      if Ascii.eqb c Str.LF then (EmptyString, Some s')
      else let (l, r) := read_line s' in (String c l, r)
  end.

(** [std::getline(in, line)] on a freshly declared [line]: on a stream
    that is not good nothing is read and [line] stays empty; reaching the
    end of the input sets eofbit, so the next call reads nothing. *)
Definition getline (i : ifstream) : string * ifstream :=
  if good i then
    match read_line (buf i) with
    | (line, Some rest) => (line, Ifstream rest true)
    | (line, None) => (line, Ifstream "" false)
    end
  else ("", i).

(** ** operator>> on a std::stringstream *)

Module Extract.

(** [isspace] in the C locale: what the stream's sentry skips. *)
Definition is_space (c : ascii) : bool :=
  let n := nat_of_ascii c in
  (n =? 32)%nat || ((9 <=? n)%nat && (n <=? 13)%nat).

Fixpoint skipws (s : string) : string :=
  match s with
  | String c s' => if is_space c then skipws s' else s
  | EmptyString => EmptyString
  end.

Definition digit (c : ascii) : option Z :=
  let n := nat_of_ascii c in
  if (48 <=? n)%nat && (n <=? 57)%nat then Some (Z.of_nat n - 48) else None.

(** The decimal digits at the head of [s]: their value on top of [acc],
    how many there are, and what follows them. *)
Fixpoint digits (s : string) (acc : Z) (n : nat) : Z * nat * string :=
  match s with
  | String c s' =>
      match digit c with
      | Some d => digits s' (10 * acc + d) (S n)
      | None => (acc, n, s)
      end
  | EmptyString => (acc, n, s)
  end.

(** An optional sign: whether it is a minus, and what follows it. *)
Definition sign (s : string) : bool * string :=
  match s with
  | String "-"%char s' => (true, s')
  | String "+"%char s' => (false, s')
  | _ => (false, s)
  end.

Definition INT_MIN : Z := - 2 ^ 31.
Definition INT_MAX : Z := 2 ^ 31 - 1.

(** [stm >> val] for [int val]: [Some v] when the extraction succeeds and
    stores [v]; [None] when it sets failbit (no digit, or a value that does
    not fit an [int]), in which case [val] holds no parsed value. *)
Definition int (s : string) : option Z :=
  let (neg, s1) := sign (skipws s) in
  let '(v, n, _) := digits s1 0 O in
  let v := if neg then - v else v in
  if (n =? 0)%nat then None
  else if (INT_MIN <=? v) && (v <=? INT_MAX) then Some v
  else None.

(** The binary64 number nearest to [m * 10 ^ e] (ties to even), as
    [strtod] computes it. For a negative [e] the quotient is taken with
    enough extra bits and a sticky bit. *)
Definition nearest_double (m e : Z) : spec_float :=
  if 0 <=? e then binary_normalize prec emax (m * 10 ^ e) 0 false
  else
    let d := 10 ^ (- e) in
    let k := 64 + Z.log2 d + 1 in
    let q := (Z.abs m * 2 ^ k) / d in
    let sticky := if (Z.abs m * 2 ^ k) mod d =? 0 then 0 else 1 in
    binary_normalize prec emax (Z.sgn m * (2 * q + sticky)) (- k - 1) false.

(** The exponent part [e[+-]ddd] that may follow a mantissa: its value and
    whether it is well formed ([e] with no digit after it is not). *)
Definition exponent (s : string) : Z * bool :=
  match s with
  | String c s' =>
      if Ascii.eqb c "e" || Ascii.eqb c "E" then
        let (neg, s1) := sign s' in
        let '(v, n, _) := digits s1 0 O in
        (if neg then - v else v, negb (n =? 0)%nat)
      else (0, true)
  | EmptyString => (0, true)
  end.

(** [stm >> val] for [double val]: the longest prefix
    [[+-]ddd[.ddd][e[+-]ddd]] after the white space is converted as by
    [strtod]; [None] when failbit is set (no mantissa digit, a dangling
    exponent, or a value out of the range of [double]). *)
Definition double (s : string) : option float :=
  let (neg, s1) := sign (skipws s) in
  let '(ip, n1, s2) := digits s1 0 O in
  let '(m, n2, s3) :=
    match s2 with
    | String "."%char s2' => digits s2' ip O
    | _ => (ip, O, s2)
    end in
  if (n1 + n2 =? 0)%nat then None
  else
    let (e, ok) := exponent s3 in
    if negb ok then None
    else
      let x := SF2Prim (nearest_double m (e - Z.of_nat n2)) in
      if is_infinity x then None
      else Some (if neg then (- x)%float else x).

End Extract.

(** ** bemsolver/compute.cpp: the grid description loader *)

(** What a call of [parse_param] can end in. *)
Inductive outcome (T : Type) : Type :=
| Value (v : T)   (* [val] was extracted and is returned *)
| Failbit         (* the extraction failed: the [val] returned holds no parsed value *)
| OutOfRange.     (* [std::out_of_range] was thrown *)
Arguments Value {T} v.
Arguments Failbit {T}.
Arguments OutOfRange {T}.

(** [template<typename T> T parse_param(std::ifstream& in)], with
    [stm >> val] at type [T] passed as [extract]. *)
Definition parse_param {T : Type} (extract : string -> option T)
    (i : ifstream) : outcome T * ifstream :=
  let (line, i') := getline i in
  (* Get stuff to right of : *)
  let idx := Str.wrap (Str.find line ":" + 1) in
  match Str.substr line idx Str.npos with
  | None => (OutOfRange, i')
  | Some rhs =>
      (* Trim whitespace *)
      let begin_ := Str.find_first_not_of line Str.blanks in
      let end_ := Str.find_last_not_of line Str.blanks in
      match Str.substr rhs begin_ (Str.wrap (end_ - begin_ + 1)) with
      | None => (OutOfRange, i')
      | Some strval =>
          (* Read from string *)
          match extract strval with
          | Some val => (Value val, i')
          | None => (Failbit, i')
          end
      end
  end.

(** [struct grid_info] of simulate.h, fields in the order declared. *)
Record grid_info := {
  num_electrodes : Z;
  (* Points per axis *)
  dimx : Z;
  dimy : Z;
  dimz : Z;
  startx : float;
  endx : float;
  starty : float;
  endy : float;
  startz : float;
  endz : float
}.

(** Storing the result of one more [parse_param] call into [info]: an
    exception thrown by any call leaves [read_grid_info]; otherwise one
    failed extraction is enough for [info] to hold an unparsed field. *)
Definition store {A B : Type} (acc : outcome (A -> B)) (r : outcome A) : outcome B :=
  match acc, r with
  | OutOfRange, _ | _, OutOfRange => OutOfRange
  | Value f, Value v => Value (f v)
  | _, _ => Failbit
  end.

(** [grid_info read_grid_info(const char* f)]; [file] is the content of
    the file [f], [None] when it cannot be opened. *)
Definition read_grid_info (file : option string) : outcome grid_info :=
  let in0 := ifstream_open file in
  (* --- *)
  let (dummy, in1) := getline in0 in
  (* num_electrodes: - *)
  let (r_num_electrodes, in2) := parse_param Extract.int in1 in
  (* dimx: - *)
  let (r_dimx, in3) := parse_param Extract.int in2 in
  let (r_dimy, in4) := parse_param Extract.int in3 in
  let (r_dimz, in5) := parse_param Extract.int in4 in
  (* startx: - *)
  let (r_startx, in6) := parse_param Extract.double in5 in
  let (r_starty, in7) := parse_param Extract.double in6 in
  let (r_startz, in8) := parse_param Extract.double in7 in
  (* endx: - *)
  let (r_endx, in9) := parse_param Extract.double in8 in
  let (r_endy, in10) := parse_param Extract.double in9 in
  let (r_endz, in11) := parse_param Extract.double in10 in
  let info := fun ne dx dy dz sx sy sz ex ey ez =>
    {| num_electrodes := ne; dimx := dx; dimy := dy; dimz := dz;
       startx := sx; starty := sy; startz := sz;
       endx := ex; endy := ey; endz := ez |} in
  store (store (store (store (store (store (store (store (store (store
    (Value info) r_num_electrodes) r_dimx) r_dimy) r_dimz)
    r_startx) r_starty) r_startz) r_endx) r_endy) r_endz.

(** ** int and double *)

(** Arithmetic on [int] wraps around at 32 bits. *)
Definition wrap_int (z : Z) : Z := (z + 2 ^ 31) mod 2 ^ 32 - 2 ^ 31.

(** [stm << i] for an [int]: its decimal numeral. *)
Definition string_of_int (i : Z) : string := pretty i.

(** The conversion [double(i)] of an [int], which is exact. *)
Definition double_of_int (i : Z) : float :=
  if i <? 0 then (- of_uint63 (Uint63.of_Z (- i)))%float
  else of_uint63 (Uint63.of_Z i).

(** ** The BEM solver library and the process environment *)

(** The calls into the solver library that build and configure the world. *)
Inductive call : Type :=
| Load (lib : string)                          (* gSystem->Load *)
| Mkdir (dir : string) (mode : Z)              (* gSystem->mkdir; 0777 is 0x1ff *)
| Import (file : string)                       (* impel->Import *)
| NewWorld (saved : string) (tol : float) (a b c : Z)   (* new D3world *)
| Insert (name : string)                       (* wr->insert(&impel->FindElectrode(name)) *)
| Refine (n : Z)                               (* wr->refine *)
| CorrectNorm (x y z : Z)                      (* wr->correctNorm *)
| Solve                                        (* wr->solve *)
| SetVoltage (name : string) (v : float).      (* impel->FindElectrode(name).SetVoltage *)

(** The library's answers. Both are determined by the calls made before:
    whether [Import] succeeds, and the potential [calc_slow] finds at a
    point of the world as built and configured so far. *)
Record solver := {
  Import_ok : list call -> string -> bool;
  calc_slow : list call -> float -> float -> float -> float
}.

(** What a run leaves behind: the solver calls in the order made, the
    files written (one [double] per line), and the lines logged. *)
Record world := World {
  calls : list call;
  files : gmap string (list float);
  cout : list string
}.

Definition do_call (c : call) (w : world) : world :=
  World (calls w ++ [c])%list (files w) (cout w).

Definition log (line : string) (w : world) : world :=
  World (calls w) (files w) (cout w ++ [line])%list.

(** [std::ofstream datafile(outfile)]: the file is created or truncated.
    A null [outfile] gives a stream that is not open. *)
Definition ofstream_open (outfile : option string) (w : world) : world :=
  match outfile with
  | Some name => World (calls w) (<[name := []]> (files w)) (cout w)
  | None => w
  end.

(** [datafile << phi << std::endl]; on a stream that is not open nothing
    is written. *)
Definition write_line (outfile : option string) (phi : float) (w : world) : world :=
  match outfile with
  | Some name => World (calls w) (alter (fun l => (l ++ [phi])%list) name (files w)) (cout w)
  | None => w
  end.

(** [for (int i = lo; i < hi; i++) body] *)
Definition for_int {St : Type} (lo hi : Z) (body : Z -> St -> St) (s : St) : St :=
  foldl (fun s i => body i s) s (seqZ lo (hi - lo)).

(** ** simulate.cpp *)

Definition savedworldname : string := "gen.cache/savedworld.data".
Definition importfilename : string := "layout.dxf".

(** [const int total_electrodes = 2 * info.num_electrodes + 2] *)
Definition total_electrodes (info : grid_info) : Z :=
  wrap_int (2 * num_electrodes info + 2).

(** [void compute_potential(const std::set<int>& electrodes,
    const grid_info& info, const char* outfile)] *)
Definition compute_potential (bem : solver) (electrodes : gset Z) (info : grid_info)
    (outfile : option string) (w : world) : world :=
  let w := do_call (Load "libbemsolver") w in
  (* Import electrodes into world and solve *)
  let w := do_call (Mkdir "gen.cache" 0x1ff) w in
  let imported := Import_ok bem (calls w) importfilename in
  let w := do_call (Import importfilename) w in
  if negb imported then w
  else
    (* Configure world, add electrodes *)
    let w := do_call (NewWorld savedworldname 0.00001 32 6 6) w in
    (* Number of non-ground electrodes *)
    let total_electrodes := total_electrodes info in
    (* If electrodes is empty, just solve *)
    let w := for_int 0 total_electrodes
               (fun i => do_call (Insert (string_of_int i))) w in
    let w := do_call (Insert "GROUND") w in
    let w := do_call (Refine 100) w in
    let w := do_call (CorrectNorm 0 0 0) w in
    let w := log "Started solving..." w in
    let w := do_call Solve w in
    let w := log "Done solving" w in
    if decide (electrodes = ∅) then w
    else
      (* Calculate potential at grid points *)
      let xstep := ((endx info - startx info) / double_of_int (wrap_int (dimx info - 1)))%float in
      let ystep := ((endy info - starty info) / double_of_int (wrap_int (dimy info - 1)))%float in
      let zstep := ((endz info - startz info) / double_of_int (wrap_int (dimz info - 1)))%float in
      let numPoints := wrap_int (wrap_int (dimx info * dimy info) * dimz info) in
      let w := for_int 0 total_electrodes
                 (fun i =>
                    if decide (i ∈ electrodes)
                    then do_call (SetVoltage (string_of_int i) 1)
                    else do_call (SetVoltage (string_of_int i) 0)) w in
      let w := do_call (SetVoltage "GROUND" 0) w in
      (* Calculate potential on the grid *)
      let w := log ("Writing to '" ++ default "" outfile ++ "'") w in
      let w := ofstream_open outfile w in
      let w := for_int 0 (dimx info) (fun i w =>
        let w := log ("  Processing point "
                      ++ string_of_int (wrap_int (wrap_int (i * dimy info) * dimz info))
                      ++ " out of " ++ string_of_int numPoints) w in
        for_int 0 (dimy info) (fun j w =>
          for_int 0 (dimz info) (fun k w =>
            let phi := calc_slow bem (calls w)
                         (startx info + double_of_int i * xstep)%float
                         (starty info + double_of_int j * ystep)%float
                         (startz info + double_of_int k * zstep)%float in
            write_line outfile phi w) w) w) w in
      (* datafile.close() *)
      log "Finished processing." w.

(** ** bemsolver/compute.cpp: the driver *)

Definition FIELD_PREFIX : string := "field".
Definition FIELD_SUFFIX : string := ".txt".

(** How a call of [compute] ends. *)
Inductive termination : Type :=
| Returned (w : world)   (* [compute] returned *)
| Uncaught (w : world)   (* [std::out_of_range] left [compute] *)
| Unspecified.           (* a field of [info] that holds no parsed value was needed *)

(** Running [k] with the [info] that was loaded. *)
Definition with_info (loaded : outcome grid_info) (k : grid_info -> world) : termination :=
  match loaded with
  | Value info => Returned (k info)
  | _ => Unspecified
  end.

(** The set [electrodes] that the loop of [compute] builds for index [i]:
    [i] is inserted, and [info.num_electrodes + i] when [i > 0]. *)
Definition activation (info : grid_info) (i : Z) : gset Z :=
  let electrodes : gset Z := ∅ in
  let electrodes := {[ i ]} ∪ electrodes in
  if 0 <? i then {[ wrap_int (num_electrodes info + i) ]} ∪ electrodes
  else electrodes.

(** [for (int i = lo; i < hi; i++) body], where [body] may not return. *)
Definition for_int_t (lo hi : Z) (body : Z -> world -> termination) (w : world) : termination :=
  foldl (fun t i => match t with Returned w => body i w | _ => t end)
        (Returned w) (seqZ lo (hi - lo)).

(** [void compute(int start, int stop)]; [grid_txt] is the content of
    the file grid.txt of the working directory, if it can be read. *)
Definition compute (bem : solver) (grid_txt : option string) (start stop : Z)
    (w : world) : termination :=
  (* gROOT->ProcessLine(".L ../simulate.cpp") makes compute_potential known *)
  match read_grid_info grid_txt with
  | OutOfRange => Uncaught w
  | loaded =>
      if start =? stop then
        let w := log "Writing solve cache" w in
        let electrodes : gset Z := ∅ in
        with_info loaded (fun info => compute_potential bem electrodes info None w)
      else
        for_int_t start stop (fun i w =>
          let w := log ("Starting on electrode " ++ string_of_int i) w in
          with_info loaded (fun info =>
            let electrodes := activation info i in
            let outfile := FIELD_PREFIX ++ string_of_int i ++ FIELD_SUFFIX in
            compute_potential bem electrodes info (Some outfile) w)) w
  end.


(** * Vocabulary of the properties *)

(** ** Lines and files *)

Definition nonblank (c : ascii) : bool := negb (Str.mem c Str.blanks).

(** Every character of [s] is a space or a tab. *)
Fixpoint all_blank (s : string) : bool :=
  match s with
  | EmptyString => true
  | String c s' => Str.mem c Str.blanks && all_blank s'
  end.

(** The number of lines of a text: a last line need not end in a line feed. *)
Fixpoint line_count (s : string) : nat :=
  match s with
  | EmptyString => O
  | String c s' =>
      if Ascii.eqb c Str.LF then S (line_count s')
      else match s' with
           | EmptyString => 1%nat
           | _ => line_count s'
           end
  end.

(** The lines a stream can still deliver. *)
Definition lines_left (i : ifstream) : nat :=
  if good i then line_count (buf i) else O.

(** What [parse_param] calls [rhs]: the part of the line after its first
    colon, the whole line when it has none. *)
Definition after_colon (line : string) : string :=
  Str.drop (Z.to_nat (Str.wrap (Str.find line ":" + 1))) line.

(** The line neither starts nor ends with a blank, has no line feed in it
    and a length that is a [size_t] below [npos]. *)
Definition tight (line : string) : Prop :=
  Str.mem Str.LF line = false /\
  Str.find_first_not_of line Str.blanks = 0 /\
  Str.find_last_not_of line Str.blanks = Str.size line - 1 /\
  Str.size line < Str.npos.

(** The value line [label:payload]. *)
Definition value_line (label payload : string) : string :=
  label ++ ":" ++ payload.

(** A value line as the format of grid.txt has it: the label has no colon
    and the line is tight. *)
Definition well_formed (label payload : string) : Prop :=
  Str.mem ":" label = false /\ tight (value_line label payload).

(** The text made of [lines], each ended by a line feed, then [rest]. *)
Definition text (lines : list string) (rest : string) : string :=
  foldr (fun l acc => l ++ String Str.LF acc) rest lines.

Definition from_extraction {T} (o : option T) : outcome T :=
  match o with
  | Some v => Value v
  | None => Failbit
  end.

(** ** Passes of the driver *)

Definition in_int (z : Z) : Prop := Extract.INT_MIN <= z <= Extract.INT_MAX.

(** The layout import of a pass started in [w] succeeds. *)
Definition import_succeeds (bem : solver) (w : world) : Prop :=
  Import_ok bem (calls w ++ [Load "libbemsolver"; Mkdir "gen.cache" 0x1ff])%list importfilename = true.

(** The calls with which a pass builds and solves the world. *)
Definition build_and_solve (info : grid_info) : list call :=
  ([Load "libbemsolver"; Mkdir "gen.cache" 0x1ff; Import importfilename;
    NewWorld savedworldname 0.00001 32 6 6]
   ++ ((fun i => Insert (string_of_int i)) <$> seqZ 0 (total_electrodes info))
   ++ [Insert "GROUND"; Refine 100; CorrectNorm 0 0 0; Solve])%list.

(** The voltages a sampling pass sets before it samples. *)
Definition set_voltages (electrodes : gset Z) (info : grid_info) : list call :=
  (((fun i => SetVoltage (string_of_int i) (if decide (i ∈ electrodes) then 1 else 0)%float)
      <$> seqZ 0 (total_electrodes info))
   ++ [SetVoltage "GROUND" 0])%list.

Definition is_solve (c : call) : bool :=
  match c with
  | Solve => true
  | _ => false
  end.

Definition is_set_voltage (c : call) : bool :=
  match c with
  | SetVoltage _ _ => true
  | _ => false
  end.

(** How often [wr->solve()] was called. *)
Definition solves (cs : list call) : nat := length (List.filter is_solve cs).

Definition is_import (c : call) : bool :=
  match c with
  | Import _ => true
  | _ => false
  end.

(** How often [impel->Import] was tried. *)
Definition imports (cs : list call) : nat := length (List.filter is_import cs).

(** ** The solved-world cache *)

(** Modelled from the spec: what [D3world] does with the file it is opened
    on. The class belongs to libbemsolver, which is not among the sources:
    [compute_potential] only hands it [savedworldname] and calls [solve].
    As the specification describes the cache, and as the note at the head
    of compute.cpp presupposes, [solve] on a world whose file holds a solved
    world reads it back and does not solve again; on a world whose file
    holds none it solves the system and saves the result to that file. No
    other call of the driver touches the file. *)
Record library := Library {
  saved : gmap string nat;   (* the solved worlds on disk, each with the number of the solve that wrote it *)
  opened : option string;    (* the file the world under construction was opened on *)
  solved : nat;              (* how often the system was solved *)
  restored : nat             (* how often a solved world was read back *)
}.

(** Modelled from the spec: the effect of one call of the driver on the
    library. [new D3world(savedworldname, ...)] opens the world on its
    file; [solve] reads the solved world back when the file holds one, and
    solves and saves otherwise; the other calls leave the file alone. *)
Definition library_call (l : library) (c : call) : library :=
  match c with
  | NewWorld path _ _ _ _ => Library (saved l) (Some path) (solved l) (restored l)
  | Solve =>
      match opened l with
      | Some path =>
          match saved l !! path with
          | Some _ => Library (saved l) (opened l) (solved l) (S (restored l))
          | None =>
              Library (<[path := S (solved l)]> (saved l)) (opened l) (S (solved l)) (restored l)
          end
      | None => l
      end
  | _ => l
  end.

(** The library after the calls [cs], made in a working directory that
    held the solved worlds [disk] before them. *)
Definition library_after (disk : gmap string nat) (cs : list call) : library :=
  foldl library_call (Library disk None 0 0) cs.

(** The coordinate of sample [i] on an axis of [dim] points from [start]
    to [stop], as [compute_potential] computes it: [start + i * step] with
    [step = (stop - start) / double(dim - 1)]. *)
Definition coordinate (start stop : float) (dim i : Z) : float :=
  (start + double_of_int i * ((stop - start) / double_of_int (wrap_int (dim - 1))))%float.

(** The potential [phi] on the grid of [info], X outermost, Z innermost. *)
Definition grid_values (phi : float -> float -> float -> float) (info : grid_info)
    : list float :=
  i ← seqZ 0 (dimx info);
  j ← seqZ 0 (dimy info);
  k ← seqZ 0 (dimz info);
  [phi (coordinate (startx info) (endx info) (dimx info) i)
       (coordinate (starty info) (endy info) (dimy info) j)
       (coordinate (startz info) (endz info) (dimz info) k)].

(** ** Examples *)

Module Example.

(** The grid file of the scenario of the specification. *)
Definition grid_txt : string :=
  text ["---"; "num_electrodes: 3"; "dimx: 2"; "dimy: 2"; "dimz: 2";
        "startx: 0"; "starty: 0"; "startz: 0"; "endx: 1"; "endy: 1"; "endz: 1"] "".

Definition info : grid_info :=
  {| num_electrodes := 3; dimx := 2; dimy := 2; dimz := 2;
     startx := 0; endx := 1; starty := 0; endy := 1; startz := 0; endz := 1 |}.

(** The same values with neither labels nor colons. *)
Definition bare_txt : string :=
  text ["---"; "3"; "2"; "2"; "2"; "0"; "0"; "0"; "1"; "1"; "1"] "".

(** The first ten lines of [grid_txt]: all but the one for [endz]. *)
Definition ten_lines : string :=
  text ["---"; "num_electrodes: 3"; "dimx: 2"; "dimy: 2"; "dimz: 2";
        "startx: 0"; "starty: 0"; "startz: 0"; "endx: 1"; "endy: 1"] "".

(** [grid_txt] with a [dimx] that is no number. *)
Definition unparsed_txt : string :=
  text ["---"; "num_electrodes: 3"; "dimx: abc"; "dimy: 2"; "dimz: 2";
        "startx: 0"; "starty: 0"; "startz: 0"; "endx: 1"; "endy: 1"; "endz: 1"] "".

(** A file that stops after its second line. *)
Definition short_txt : string := text ["---"; "num_electrodes: 3"] "".

(** A solver whose import always succeeds. *)
Definition ideal : solver :=
  {| Import_ok := fun _ _ => true;
     calc_slow := fun _ x y z => (x + 2 * y + 4 * z)%float |}.

(** A solver whose import fails the first time it is tried. *)
Definition flaky : solver :=
  {| Import_ok := fun cs file =>
       existsb (fun c => match c with Import _ => true | _ => false end) cs;
     calc_slow := fun _ x y z => (x + 2 * y + 4 * z)%float |}.

(** A solver whose import always fails. *)
Definition broken : solver :=
  {| Import_ok := fun _ _ => false;
     calc_slow := fun _ _ _ _ => 0%float |}.

(** A fresh working directory. *)
Definition w0 : world := World [] ∅ [].

End Example.

(** ** Vocabulary of the further properties *)

(** What one call of [parse_param] makes of a line that it is handed
    alone, the stream apart. *)
Definition parse_value {T : Type} (extract : string -> option T) (line : string)
    : outcome T :=
  (parse_param extract (Ifstream line true)).1.

(** Every character of [s] is white space for the stream's sentry. *)
Fixpoint all_space (s : string) : bool :=
  match s with
  | EmptyString => true
  | String c s' => Extract.is_space c && all_space s'
  end.

Definition CR : ascii := "013"%char.

(** The name [compute] gives the output file of index [i]. *)
Definition field_file (i : Z) : string :=
  FIELD_PREFIX ++ string_of_int i ++ FIELD_SUFFIX.

(** What [read_grid_info] makes of the outcomes of its ten calls of
    [parse_param], in the order of the calls. *)
Definition fields_in_order (r_num_electrodes r_dimx r_dimy r_dimz : outcome Z)
    (r_startx r_starty r_startz r_endx r_endy r_endz : outcome float)
    : outcome grid_info :=
  store (store (store (store (store (store (store (store (store (store
    (Value (fun ne dx dy dz sx sy sz ex ey ez =>
              {| num_electrodes := ne; dimx := dx; dimy := dy; dimz := dz;
                 startx := sx; starty := sy; startz := sz;
                 endx := ex; endy := ey; endz := ez |}))
    r_num_electrodes) r_dimx) r_dimy) r_dimz)
    r_startx) r_starty) r_startz) r_endx) r_endy) r_endz.

Module Sample.

(** The ten value lines of [Example.grid_txt]. *)
Definition value_lines : list string :=
  ["num_electrodes: 3"; "dimx: 2"; "dimy: 2"; "dimz: 2";
   "startx: 0"; "starty: 0"; "startz: 0"; "endx: 1"; "endy: 1"; "endz: 1"].

(** The same with an empty line in the place of the one for [dimz]. *)
Definition gapped_lines : list string :=
  ["num_electrodes: 3"; "dimx: 2"; "dimy: 2"; "";
   "startx: 0"; "starty: 0"; "startz: 0"; "endx: 1"; "endy: 1"; "endz: 1"].

End Sample.

(** * Properties *)

(** ** Strings *)

Module StrFacts.
Import Str.

Lemma size_nonneg s : 0 <= size s.
Proof. unfold size. lia. Qed.

Lemma size_String c s : size (String c s) = size s + 1.
Proof. unfold size. simpl String.length. lia. Qed.

Lemma size_app s t : size (s ++ t) = size s + size t.
Proof.
  induction s as [|c s IH].
  - change (size "") with 0. reflexivity.
  - change (String c s ++ t) with (String c (s ++ t)).
    rewrite !size_String, IH. lia.
Qed.

Lemma app_cons c (s t : string) : String c s ++ t = String c (s ++ t).
Proof. reflexivity. Qed.

Lemma app_assoc (s t u : string) : (s ++ t) ++ u = s ++ t ++ u.
Proof.
  induction s as [|c s IH]; [reflexivity |].
  rewrite !app_cons. now rewrite IH.
Qed.

Lemma take_all s n : (String.length s <= n)%nat -> take n s = s.
Proof.
  revert n. induction s as [|c s IH]; intros [|n] Hn; simpl in *; try reflexivity; try lia.
  rewrite IH; [reflexivity | lia].
Qed.

Lemma drop_app s t : drop (String.length s) (s ++ t) = t.
Proof.
  induction s as [|c s IH]; [now destruct t |].
  rewrite app_cons. exact IH.
Qed.

Lemma first_index_cons p c s :
  first_index p (String c s) = if p c then Some O else S <$> first_index p s.
Proof. reflexivity. Qed.

Lemma all_blank_cons c s : all_blank (String c s) = mem c blanks && all_blank s.
Proof. reflexivity. Qed.

Lemma first_index_all_blank s :
  all_blank s = true -> first_index nonblank s = None.
Proof.
  induction s as [|c s IH]; [reflexivity |].
  rewrite all_blank_cons, first_index_cons.
  intros [Hc Hs]%andb_true_iff. unfold nonblank at 1. rewrite Hc, (IH Hs).
  reflexivity.
Qed.

Lemma colon_not_blank : mem ":" blanks = false.
Proof. reflexivity. Qed.

Lemma first_index_colon_blank s :
  all_blank s = true -> first_index (Ascii.eqb ":") s = None.
Proof.
  induction s as [|c s IH]; [reflexivity |].
  rewrite all_blank_cons, first_index_cons.
  intros [Hc Hs]%andb_true_iff. rewrite (IH Hs).
  destruct (Ascii.eqb_spec ":" c) as [<- | _]; [| reflexivity].
  rewrite colon_not_blank in Hc. discriminate Hc.
Qed.

Lemma substr_npos s count : size s < npos -> substr s npos count = None.
Proof.
  intros Hs. unfold substr. destruct (Z.ltb_spec (size s) npos); [reflexivity | lia].
Qed.

Lemma mem_cons c a chars : mem c (String a chars) = Ascii.eqb a c || mem c chars.
Proof. reflexivity. Qed.

Lemma first_index_lt p s k : first_index p s = Some k -> (k < String.length s)%nat.
Proof.
  revert k. induction s as [|c s IH]; intros k; [discriminate |].
  rewrite first_index_cons. destruct (p c).
  - intros [= <-]. simpl. lia.
  - destruct (first_index p s) as [j|]; [| discriminate].
    intros [= <-]. specialize (IH j eq_refl). simpl. lia.
Qed.

Lemma length_drop n s : String.length (drop n s) = (String.length s - n)%nat.
Proof.
  revert s. induction n as [|n IH]; intros [|c s]; simpl; try lia. apply IH.
Qed.

Lemma substr_all s n : size s <= n -> substr s 0 n = Some s.
Proof.
  intros Hn. unfold substr. pose proof (size_nonneg s).
  destruct (Z.ltb_spec (size s) 0); [lia |].
  simpl drop. rewrite take_all; [reflexivity |]. unfold size in *. lia.
Qed.

Lemma substr_from s pos : 0 <= pos <= size s -> size s < npos ->
  substr s pos npos = Some (drop (Z.to_nat pos) s).
Proof.
  intros Hpos Hs. unfold substr.
  destruct (Z.ltb_spec (size s) pos); [lia |].
  rewrite take_all; [reflexivity |].
  rewrite length_drop. unfold size in *. lia.
Qed.

Lemma first_index_colon label payload :
  mem ":" label = false ->
  first_index (Ascii.eqb ":") (label ++ String ":" payload) = Some (String.length label).
Proof.
  induction label as [|c label IH]; intros H.
  - reflexivity.
  - rewrite mem_cons in H. apply orb_false_iff in H as [Hc Hl].
    rewrite app_cons, first_index_cons, Ascii.eqb_sym, Hc, (IH Hl). reflexivity.
Qed.

(** The index after the first colon is within the line. *)
Lemma idx_le_size line :
  size line < npos ->
  0 <= wrap (find line ":" + 1) <= size line.
Proof.
  intros Hs. unfold find, wrap, size in *.
  destruct (first_index (Ascii.eqb ":") line) as [k|] eqn:E; simpl pos_of.
  - apply first_index_lt in E. unfold npos, size_max in *.
    rewrite Z.mod_small; lia.
  - change ((npos + 1) mod size_max) with 0. lia.
Qed.

End StrFacts.

(** ** The grid description loader *)

Module Loader.
Import Str StrFacts.

Lemma line_count_cons c s : (0 < line_count (String c s))%nat.
Proof.
  revert c. induction s as [|c' s IH]; intros c; simpl.
  - destruct (Ascii.eqb c LF); lia.
  - destruct (Ascii.eqb c LF); [lia | apply IH].
Qed.

Lemma read_line_count s :
  match read_line s with
  | (_, Some rest) => line_count s = S (line_count rest)
  | (_, None) => (line_count s <= 1)%nat
  end.
Proof.
  induction s as [|c s IH]; simpl; [lia |].
  destruct (Ascii.eqb c LF); [reflexivity |].
  destruct (read_line s) as [l [rest|]]; destruct s; simpl in *; try lia; exact IH.
Qed.

Lemma getline_lines_left i line i' :
  getline i = (line, i') -> lines_left i' = pred (lines_left i).
Proof.
  unfold getline, lines_left. destruct i as [b [|]]; simpl.
  - pose proof (read_line_count b) as H.
    destruct (read_line b) as [l [rest|]]; intros [= <- <-]; simpl; lia.
  - intros [= <- <-]. reflexivity.
Qed.

Lemma getline_exhausted i : lines_left i = O -> (getline i).1 = "".
Proof.
  unfold getline, lines_left. destruct i as [b [|]]; simpl; [| reflexivity].
  destruct b as [|c b]; [reflexivity |].
  pose proof (line_count_cons c b). lia.
Qed.

Lemma read_line_app line rest :
  mem LF line = false -> read_line (line ++ String LF rest) = (line, Some rest).
Proof.
  induction line as [|c line IH]; intros H.
  - reflexivity.
  - rewrite mem_cons in H. apply orb_false_iff in H as [Hc Hl].
    rewrite app_cons. simpl. rewrite Hc, (IH Hl). reflexivity.
Qed.

Lemma getline_app line rest :
  mem LF line = false ->
  getline (Ifstream (line ++ String LF rest) true) = (line, Ifstream rest true).
Proof. intros H. unfold getline. simpl. now rewrite (read_line_app _ _ H). Qed.

(** *** One call of [parse_param], at any type [T] *)

Section ParseParam.
Context {T : Type} (extract : string -> option T).

(** The heart of [parse_param]: on a line of blanks, possibly empty, the
    trim bounds are both [npos] and [rhs.substr(begin, ...)] throws. *)
Lemma parse_param_blank i :
  size (getline i).1 < npos ->
  all_blank (getline i).1 = true ->
  (parse_param extract i).1 = OutOfRange.
Proof.
  unfold parse_param. destruct (getline i) as [line i']. simpl fst.
  intros Hsize Hblank.
  unfold find. rewrite (first_index_colon_blank _ Hblank).
  change (wrap (pos_of None + 1)) with 0.
  rewrite substr_all by lia.
  unfold find_first_not_of. fold nonblank. rewrite (first_index_all_blank _ Hblank).
  change (pos_of None) with npos.
  now rewrite (substr_npos _ _ Hsize).
Qed.

Lemma parse_param_exhausted i :
  lines_left i = O -> (parse_param extract i).1 = OutOfRange.
Proof.
  intros H. apply parse_param_blank; rewrite (getline_exhausted _ H); reflexivity.
Qed.

Lemma parse_param_lines_left i r i' :
  parse_param extract i = (r, i') -> lines_left i' = pred (lines_left i).
Proof.
  unfold parse_param. destruct (getline i) as [line i1] eqn:E.
  apply getline_lines_left in E.
  repeat case_match; intros [= <- <-]; exact E.
Qed.

(** On a tight line the trimming of [parse_param] changes nothing: the
    value is extracted from everything after the first colon. *)
Lemma parse_param_tight line rest :
  tight line ->
  parse_param extract (Ifstream (line ++ String LF rest) true)
  = (from_extraction (extract (after_colon line)), Ifstream rest true).
Proof.
  intros (Hlf & Hfirst & Hlast & Hsize).
  unfold parse_param. rewrite (getline_app _ _ Hlf).
  pose proof (idx_le_size line Hsize) as Hidx.
  rewrite (substr_from _ _ Hidx Hsize). fold (after_colon line).
  rewrite Hfirst, Hlast.
  replace (wrap (size line - 1 - 0 + 1)) with (size line).
  2:{ unfold wrap. pose proof (size_nonneg line). unfold npos in Hsize.
      rewrite Z.mod_small; lia. }
  rewrite substr_all.
  - unfold from_extraction. now destruct (extract (after_colon line)).
  - unfold after_colon, size. rewrite length_drop. lia.
Qed.

End ParseParam.

(** *** The ten calls of [read_grid_info] *)

Lemma store_throw {A B} (acc : outcome (A -> B)) : store acc OutOfRange = OutOfRange.
Proof. now destruct acc. Qed.

(** The loader throws only when one of its calls does. *)
Lemma store_returns {A B} (acc : outcome (A -> B)) (r : outcome A) :
  acc <> OutOfRange -> r <> OutOfRange -> store acc r <> OutOfRange.
Proof. destruct acc, r; simpl; congruence. Qed.

(** All fields hold a value only when every extraction succeeded. *)
Lemma store_value_inv {A B} (acc : outcome (A -> B)) (r : outcome A) (v : B) :
  store acc r = Value v -> (exists f, acc = Value f) /\ (exists a, r = Value a).
Proof. destruct acc, r; simpl; intros H; try discriminate H; eauto. Qed.

Lemma from_extraction_returns {T} (o : option T) : from_extraction o <> OutOfRange.
Proof. now destruct o. Qed.

Lemma from_extraction_value {T} (o : option T) (v : T) :
  from_extraction o = Value v -> o = Some v.
Proof. destruct o; simpl; congruence. Qed.

(** A file that cannot be opened or that has fewer than eleven lines makes
    the last [parse_param] call, at the latest, throw. *)
Lemma read_grid_info_exhausted file :
  (lines_left (ifstream_open file) < 11)%nat -> read_grid_info file = OutOfRange.
Proof.
  intros Hlt. unfold read_grid_info.
  destruct (getline _) as [dummy in1] eqn:E0. apply getline_lines_left in E0.
  destruct (parse_param Extract.int in1) as [r1 in2] eqn:E1.
  destruct (parse_param Extract.int in2) as [r2 in3] eqn:E2.
  destruct (parse_param Extract.int in3) as [r3 in4] eqn:E3.
  destruct (parse_param Extract.int in4) as [r4 in5] eqn:E4.
  destruct (parse_param Extract.double in5) as [r5 in6] eqn:E5.
  destruct (parse_param Extract.double in6) as [r6 in7] eqn:E6.
  destruct (parse_param Extract.double in7) as [r7 in8] eqn:E7.
  destruct (parse_param Extract.double in8) as [r8 in9] eqn:E8.
  destruct (parse_param Extract.double in9) as [r9 in10] eqn:E9.
  apply parse_param_lines_left in E1, E2, E3, E4, E5, E6, E7, E8, E9.
  assert (lines_left in10 = O) as H10 by lia.
  pose proof (parse_param_exhausted Extract.double in10 H10) as E10.
  destruct (parse_param Extract.double in10) as [r10 in11]. simpl in E10. subst r10.
  apply store_throw.
Qed.

(** A line [label:payload] whose label has no colon. *)
Lemma after_colon_labelled label payload :
  mem ":" label = false ->
  size (label ++ ":" ++ payload) < npos ->
  after_colon (label ++ ":" ++ payload) = payload.
Proof.
  intros Hl Hs. unfold after_colon, find.
  change (":" ++ payload) with (String ":" payload) in *.
  rewrite (first_index_colon _ _ Hl). simpl pos_of.
  rewrite size_app, size_String in Hs. pose proof (size_nonneg payload).
  unfold wrap, npos, size in *. rewrite Z.mod_small by lia.
  replace (Z.to_nat (Z.of_nat (String.length label) + 1)) with (S (String.length label)) by lia.
  replace (label ++ String ":" payload) with ((label ++ ":") ++ payload)
    by (now rewrite app_assoc).
  replace (S (String.length label)) with (String.length (label ++ ":")).
  - apply drop_app.
  - apply Nat2Z.inj. fold (size (label ++ ":")). rewrite size_app. unfold size. simpl. lia.
Qed.

(** A line without a colon: [find] gives [npos], [npos + 1] wraps to 0
    and the whole line is the payload. *)
Lemma after_colon_none line :
  find line ":" = npos -> after_colon line = line.
Proof. intros H. unfold after_colon. rewrite H. reflexivity. Qed.

End Loader.

(** ** Claims about the loader *)

Module LoaderClaims.
Import Str StrFacts Loader.

Lemma text_cons l lines rest : text (l :: lines) rest = l ++ String LF (text lines rest).
Proof. reflexivity. Qed.

Lemma parse_param_value_line {T} (extract : string -> option T) label payload rest :
  well_formed label payload ->
  parse_param extract (Ifstream (value_line label payload ++ String LF rest) true)
  = (from_extraction (extract payload), Ifstream rest true).
Proof.
  intros [Hl Ht]. rewrite (parse_param_tight extract _ rest Ht).
  unfold value_line. rewrite after_colon_labelled; [reflexivity | exact Hl |].
  apply Ht.
Qed.

(** C9: on a line without a non-blank character [parse_param] ends in
    [std::out_of_range], thrown by [rhs.substr(begin, ...)] with
    [begin = npos]; a stream that is exhausted delivers such a line, so
    that on a grid file of fewer than ten lines [read_grid_info] throws and
    no handler in [compute] catches it. *)
Theorem parse_param_blank_line_throws :
  (forall (T : Type) (extract : string -> option T) (i : ifstream),
      all_blank (getline i).1 = true ->
      size (getline i).1 < npos ->
      find_first_not_of (getline i).1 blanks = npos
      /\ (parse_param extract i).1 = OutOfRange)
  /\ (forall (content : string) (bem : solver) (start stop : Z) (w : world),
      (line_count content < 10)%nat ->
      read_grid_info (Some content) = OutOfRange
      /\ compute bem (Some content) start stop w = Uncaught w).
Proof.
  split.
  - intros T extract i Hblank Hsize. split.
    + unfold find_first_not_of. fold nonblank.
      now rewrite (first_index_all_blank _ Hblank).
    + now apply parse_param_blank.
  - intros content bem start stop w Hlt.
    assert (read_grid_info (Some content) = OutOfRange) as H.
    { apply read_grid_info_exhausted. unfold lines_left. simpl. lia. }
    split; [exact H |]. unfold compute. now rewrite H.
Qed.

Lemma parse_param_blank_line_throws_witness :
  (parse_param Extract.int (Ifstream (String " " (String TAB "")) true)).1 = OutOfRange
  /\ read_grid_info (Some Example.short_txt) = OutOfRange.
Proof.
  split.
  - apply (proj1 parse_param_blank_line_throws Z Extract.int
             (Ifstream (String " " (String TAB "")) true)).
    + reflexivity.
    + vm_compute. reflexivity.
  - apply (proj2 parse_param_blank_line_throws Example.short_txt
             Example.ideal 0 1 Example.w0).
    vm_compute. lia.
Defined.

(** C8, on [parse_param]: the trim bounds are those of the whole line, but
    they are applied to [rhs]. On a line that is indented by two blanks the
    payload loses its first digit. *)
Theorem parse_param_trim_misplaced :
  after_colon "  dimx: 12345" = " 12345"
  /\ Extract.int "12345" = Some 12345
  /\ (parse_param Extract.int (Ifstream "  dimx: 12345" true)).1 = Value 2345.
Proof. repeat split; vm_compute; reflexivity. Qed.

(** C3 as stated fails: value lines without a colon are accepted, and the
    loader returns a [grid_info]. *)
Lemma read_grid_info_accepts_no_colon :
  find "3" ":" = npos
  /\ read_grid_info (Some Example.bare_txt) = Value Example.info.
Proof. split; vm_compute; reflexivity. Qed.

(** C3, amended: the loader knows no error of its own and validates
    nothing. When the file cannot be opened, or has fewer than eleven
    lines, it ends in [std::out_of_range]. A value line without a colon is
    not refused: the whole line is its payload. A numeric field that does
    not parse raises no error: [parse_param] returns with [val] not parsed,
    and on a header and ten lines that neither start nor end with a blank,
    with or without colons, [read_grid_info] never throws; it returns, and
    when an extraction failed the [grid_info] holds a field that was not
    parsed. *)
Theorem read_grid_info_failures :
  read_grid_info None = OutOfRange
  /\ (forall content : string,
        (line_count content < 11)%nat -> read_grid_info (Some content) = OutOfRange)
  /\ (forall (T : Type) (extract : string -> option T) (line rest : string),
        tight line ->
        find line ":" = npos ->
        parse_param extract (Ifstream (line ++ String LF rest) true)
        = (from_extraction (extract line), Ifstream rest true))
  /\ (forall (T : Type) (extract : string -> option T) (label payload rest : string),
        well_formed label payload ->
        extract payload = None ->
        parse_param extract (Ifstream (value_line label payload ++ String LF rest) true)
        = (Failbit, Ifstream rest true))
  /\ (forall header rest l1 l2 l3 l4 l5 l6 l7 l8 l9 l10 : string,
        mem LF header = false ->
        Forall tight [l1; l2; l3; l4; l5; l6; l7; l8; l9; l10] ->
        let loaded :=
          read_grid_info
            (Some (text [header; l1; l2; l3; l4; l5; l6; l7; l8; l9; l10] rest)) in
        loaded <> OutOfRange
        /\ (None ∈ ((fun l => Extract.int (after_colon l)) <$> [l1; l2; l3; l4])
            \/ None ∈ ((fun l => Extract.double (after_colon l)) <$> [l5; l6; l7; l8; l9; l10])
            -> loaded = Failbit)).
Proof.
  split; [| split; [| split; [| split]]].
  - apply read_grid_info_exhausted. unfold lines_left. simpl. lia.
  - intros content H. apply read_grid_info_exhausted. unfold lines_left. simpl. lia.
  - intros T extract line rest Ht Hc.
    rewrite (parse_param_tight extract _ rest Ht). now rewrite (after_colon_none _ Hc).
  - intros T extract label payload rest Hwf He.
    rewrite (parse_param_value_line extract _ _ rest Hwf), He. reflexivity.
  - intros header rest l1 l2 l3 l4 l5 l6 l7 l8 l9 l10 Hh Ht.
    repeat match goal with
           | H : Forall _ (_ :: _) |- _ => apply Forall_cons_1 in H as [? H]
           end.
    cbv zeta. unfold read_grid_info, ifstream_open. rewrite !text_cons.
    rewrite (getline_app _ _ Hh).
    rewrite !parse_param_tight by assumption.
    match goal with
    | |- ?r <> _ /\ _ => assert (r <> OutOfRange) as Hret
    end.
    { repeat apply store_returns; try apply from_extraction_returns. discriminate. }
    split; [exact Hret |].
    intros Hnone.
    match goal with
    | |- ?r = _ => destruct r as [v | |] eqn:E
    end; [exfalso | reflexivity | contradiction].
    repeat match goal with
           | H : store _ _ = Value _ |- _ =>
               apply store_value_inv in H as [[? H] [? ?%from_extraction_value]]
           end.
    cbn [fmap list_fmap] in Hnone.
    destruct Hnone as [Hnone | Hnone];
      repeat (apply elem_of_cons in Hnone as [Hnone | Hnone]; [congruence |]);
      now apply elem_of_nil in Hnone.
Qed.

Lemma read_grid_info_failures_witness :
  read_grid_info (Some Example.ten_lines) = OutOfRange
  /\ parse_param Extract.int (Ifstream ("dimx 2" ++ String LF "") true)
     = (Failbit, Ifstream "" true)
  /\ parse_param Extract.int (Ifstream (value_line "dimx" " abc" ++ String LF "") true)
     = (Failbit, Ifstream "" true)
  /\ read_grid_info (Some Example.unparsed_txt) = Failbit.
Proof.
  split; [| split; [| split]].
  - apply (proj1 (proj2 read_grid_info_failures) Example.ten_lines).
    vm_compute. lia.
  - apply (proj1 (proj2 (proj2 read_grid_info_failures)) Z Extract.int "dimx 2" "").
    + repeat split; vm_compute; reflexivity.
    + reflexivity.
  - apply (proj1 (proj2 (proj2 (proj2 read_grid_info_failures))) Z Extract.int "dimx" " abc" "").
    + repeat split; vm_compute; reflexivity.
    + reflexivity.
  - apply (proj2 (proj2 (proj2 (proj2 read_grid_info_failures))) "---" ""
             "num_electrodes: 3" "dimx: abc" "dimy: 2" "dimz: 2"
             "startx: 0" "starty: 0" "startz: 0" "endx: 1" "endy: 1" "endz: 1").
    + reflexivity.
    + repeat (apply List.Forall_cons; [repeat split; vm_compute; reflexivity |]).
      apply List.Forall_nil.
    + left. cbn [fmap list_fmap]. apply elem_of_cons. right. apply elem_of_cons. left.
      vm_compute. reflexivity.
Defined.

(** C5 as stated fails: the loader reads an eleventh line. The first ten
    lines of a grid file do not make a grid, and what the loader returns
    depends on the line after them. *)
Lemma read_grid_info_eleventh_line :
  (line_count Example.ten_lines = 10)%nat
  /\ read_grid_info (Some Example.ten_lines) = OutOfRange
  /\ read_grid_info (Some (Example.ten_lines ++ "endz: 1")) = Value Example.info
  /\ read_grid_info (Some (Example.ten_lines ++ "endz: 2"))
     = Value {| num_electrodes := 3; dimx := 2; dimy := 2; dimz := 2;
                startx := 0; endx := 1; starty := 0; endy := 1;
                startz := 0; endz := 2 |}.
Proof. repeat split; vm_compute; reflexivity. Qed.

(** C5, amended: the loader reads eleven lines. It drops the first and
    takes the next ten, by position alone, as the electrode count, dimX,
    dimY, dimZ, startX, startY, startZ, endX, endY and endZ. When these are
    well-formed value lines, whatever their labels, each field of the
    [grid_info] returned is the number extracted from the payload of its
    line: four [int]s, then six [double]s. What follows the eleventh line
    is not looked at. *)
Theorem read_grid_info_round_trip
    (header rest l1 l2 l3 l4 l5 l6 l7 l8 l9 l10 p1 p2 p3 p4 p5 p6 p7 p8 p9 p10 : string)
    (ne dx dy dz : Z) (sx sy sz ex ey ez : float) :
  mem LF header = false ->
  Forall2 well_formed [l1; l2; l3; l4; l5; l6; l7; l8; l9; l10]
                      [p1; p2; p3; p4; p5; p6; p7; p8; p9; p10] ->
  Extract.int <$> [p1; p2; p3; p4] = Some <$> [ne; dx; dy; dz] ->
  Extract.double <$> [p5; p6; p7; p8; p9; p10] = Some <$> [sx; sy; sz; ex; ey; ez] ->
  read_grid_info
    (Some (text (header :: zip_with value_line
                             [l1; l2; l3; l4; l5; l6; l7; l8; l9; l10]
                             [p1; p2; p3; p4; p5; p6; p7; p8; p9; p10]) rest))
  = Value {| num_electrodes := ne; dimx := dx; dimy := dy; dimz := dz;
             startx := sx; endx := ex; starty := sy; endy := ey;
             startz := sz; endz := ez |}.
Proof.
  intros Hh Hwf Hi Hd.
  repeat match goal with
         | H : Forall2 _ (_ :: _) (_ :: _) |- _ => apply Forall2_cons_1 in H as [? H]
         end.
  cbn [fmap list_fmap] in Hi, Hd.
  injection Hi as Hi1 Hi2 Hi3 Hi4. injection Hd as Hd1 Hd2 Hd3 Hd4 Hd5 Hd6.
  unfold read_grid_info, ifstream_open. cbn [zip_with]. rewrite !text_cons.
  rewrite (getline_app _ _ Hh).
  rewrite !parse_param_value_line by assumption.
  rewrite Hi1, Hi2, Hi3, Hi4, Hd1, Hd2, Hd3, Hd4, Hd5, Hd6.
  reflexivity.
Qed.

Lemma read_grid_info_round_trip_witness :
  read_grid_info (Some Example.grid_txt) = Value Example.info.
Proof.
  apply (read_grid_info_round_trip "---" ""
           "num_electrodes" "dimx" "dimy" "dimz" "startx" "starty" "startz"
           "endx" "endy" "endz" " 3" " 2" " 2" " 2" " 0" " 0" " 0" " 1" " 1" " 1").
  - reflexivity.
  - repeat (apply List.Forall2_cons; [repeat split; vm_compute; reflexivity |]).
    apply List.Forall2_nil.
  - reflexivity.
  - reflexivity.
Defined.

End LoaderClaims.

(** ** The driver *)

Module Driver.

(** Calls and log lines, carried out on a world that is given by its
    three components. *)
Lemma do_call_World c cs fs co :
  do_call c (World cs fs co) = World (cs ++ [c]) fs co.
Proof. reflexivity. Qed.

Lemma log_World line cs fs co :
  log line (World cs fs co) = World cs fs (co ++ [line]).
Proof. reflexivity. Qed.

Ltac run :=
  cbv beta zeta;
  repeat (rewrite do_call_World || rewrite log_World);
  cbn [calls files cout].


Lemma for_int_ext {St} lo hi (body body' : Z -> St -> St) s :
  (forall i s, body i s = body' i s) -> for_int lo hi body s = for_int lo hi body' s.
Proof.
  intros H. unfold for_int. revert s.
  induction (seqZ lo (hi - lo)) as [|a l IH]; intros s; simpl; [reflexivity |].
  now rewrite H, IH.
Qed.

(** A loop that only makes calls. *)
Lemma for_int_do_call (g : Z -> call) lo hi cs fs co :
  for_int lo hi (fun i => do_call (g i)) (World cs fs co)
  = World (cs ++ (g <$> seqZ lo (hi - lo))) fs co.
Proof.
  unfold for_int. revert cs.
  induction (seqZ lo (hi - lo)) as [|a l IH]; intros cs; simpl.
  - now rewrite List.app_nil_r.
  - rewrite do_call_World, IH. now rewrite <- List.app_assoc.
Qed.

(** A loop whose every turn appends lines to the file [name] and to the
    log, and makes no call. *)
Lemma for_int_append (body : Z -> world -> world) (vals : Z -> list float)
    (lg : Z -> list string) name cs (m0 : gmap string (list float)) :
  (forall i old co,
      body i (World cs (<[name := old]> m0) co)
      = World cs (<[name := (old ++ vals i)%list]> m0) (co ++ lg i)%list) ->
  forall lo hi old co,
    for_int lo hi body (World cs (<[name := old]> m0) co)
    = World cs (<[name := (old ++ (seqZ lo (hi - lo) ≫= vals))%list]> m0)
            (co ++ (seqZ lo (hi - lo) ≫= lg))%list.
Proof.
  intros Hbody lo hi. unfold for_int.
  induction (seqZ lo (hi - lo)) as [|a l IH]; intros old co; simpl.
  - now rewrite !List.app_nil_r.
  - rewrite Hbody, IH. now rewrite <- !List.app_assoc.
Qed.

Lemma write_line_inserted name phi cs old (m0 : gmap string (list float)) co :
  write_line (Some name) phi (World cs (<[name := old]> m0) co)
  = World cs (<[name := (old ++ [phi])%list]> m0) (co ++ [])%list.
Proof.
  unfold write_line. simpl. now rewrite alter_insert_eq, List.app_nil_r.
Qed.

Lemma wrap_int_small z : in_int z -> wrap_int z = z.
Proof.
  unfold in_int, wrap_int, Extract.INT_MIN, Extract.INT_MAX. intros H.
  rewrite Z.mod_small; lia.
Qed.

(** A pass whose import fails makes three calls and returns. *)
Lemma compute_potential_import_failed bem electrodes info outfile w :
  Import_ok bem (calls w ++ [Load "libbemsolver"; Mkdir "gen.cache" 0x1ff]) importfilename = false ->
  compute_potential bem electrodes info outfile w
  = World (calls w ++ [Load "libbemsolver"; Mkdir "gen.cache" 0x1ff; Import importfilename])
          (files w) (cout w).
Proof.
  intros Himp. destruct w as [cs fs co]. unfold compute_potential.
  cbn [calls files cout] in Himp. run.
  rewrite <- !List.app_assoc. cbn [app]. rewrite Himp. reflexivity.
Qed.

(** A pass with no electrode to activate builds and solves the world, and
    returns. *)
Lemma compute_potential_priming bem info outfile w :
  import_succeeds bem w ->
  compute_potential bem ∅ info outfile w
  = World (calls w ++ build_and_solve info) (files w)
          (cout w ++ ["Started solving..."; "Done solving"]).
Proof.
  unfold import_succeeds. intros Himp. destruct w as [cs fs co].
  unfold compute_potential. cbn [calls files cout] in Himp. run.
  rewrite <- !List.app_assoc. cbn [app]. rewrite Himp. cbn [negb].
  rewrite for_int_do_call. run. rewrite decide_True by reflexivity.
  unfold build_and_solve. rewrite Z.sub_0_r.
  rewrite <- !List.app_assoc. reflexivity.
Qed.

(** A sampling pass: the calls of a priming pass, the voltages, and the
    potential at every point of the grid, written to the file in the
    order of the three loops. *)
Lemma compute_potential_sampling bem electrodes info name w :
  import_succeeds bem w ->
  electrodes <> ∅ ->
  let cs := (calls w ++ build_and_solve info ++ set_voltages electrodes info)%list in
  let w' := compute_potential bem electrodes info (Some name) w in
  calls w' = cs
  /\ files w' = <[name := grid_values (calc_slow bem cs) info]> (files w).
Proof.
  intros Himp Hne. unfold import_succeeds in Himp. cbv zeta.
  destruct w as [cs fs co]. cbn [calls files cout] in *.
  set (cs0 := (cs ++ build_and_solve info ++ set_voltages electrodes info)%list).
  unfold compute_potential. run.
  rewrite <- !List.app_assoc. cbn [app]. rewrite Himp. cbn [negb].
  rewrite for_int_do_call. run. rewrite decide_False by exact Hne.
  rewrite (for_int_ext 0 (total_electrodes info) _
             (fun i => do_call (SetVoltage (string_of_int i)
                                  (if decide (i ∈ electrodes) then 1 else 0)%float))).
  2:{ intros i s. now destruct (decide (i ∈ electrodes)). }
  rewrite for_int_do_call. run. unfold ofstream_open. cbn [calls files cout]. run.
  rewrite !Z.sub_0_r.
  match goal with
  | |- context [for_int 0 (dimx info) _ (World ?c _ _)] => set (cs1 := c)
  end.
  assert (cs1 = cs0) as Hcs.
  { subst cs1 cs0. unfold build_and_solve, set_voltages.
    rewrite <- !List.app_assoc. reflexivity. }
  clearbody cs1. subst cs1.
  erewrite (for_int_append _
    (fun i => seqZ 0 (dimy info) ≫= fun j => seqZ 0 (dimz info) ≫= fun k =>
       [calc_slow bem cs0 (coordinate (startx info) (endx info) (dimx info) i)
                        (coordinate (starty info) (endy info) (dimy info) j)
                        (coordinate (startz info) (endz info) (dimz info) k)])
    _ name cs0 fs).
  - cbn [calls files cout]. split; [reflexivity |].
    unfold grid_values. rewrite Z.sub_0_r. reflexivity.
  - intros i old co1. run.
    erewrite (for_int_append _
      (fun j => seqZ 0 (dimz info) ≫= fun k =>
         [calc_slow bem cs0 (coordinate (startx info) (endx info) (dimx info) i)
                          (coordinate (starty info) (endy info) (dimy info) j)
                          (coordinate (startz info) (endz info) (dimz info) k)])
      (fun _ => []) name cs0 fs).
    + rewrite Z.sub_0_r, <- List.app_assoc. reflexivity.
    + intros j old2 co2.
      erewrite (for_int_append _
        (fun k =>
           [calc_slow bem cs0 (coordinate (startx info) (endx info) (dimx info) i)
                            (coordinate (starty info) (endy info) (dimy info) j)
                            (coordinate (startz info) (endz info) (dimz info) k)])
        (fun _ => []) name cs0 fs).
      * rewrite Z.sub_0_r.
        replace (seqZ 0 (dimz info) ≫= (fun _ : Z => @nil string)) with (@nil string).
        -- reflexivity.
        -- induction (seqZ 0 (dimz info)); [reflexivity | assumption].
      * intros k old3 co3. cbn [calls]. apply write_line_inserted.
Qed.

Lemma for_int_t_returned lo hi (g : Z -> world -> world) w :
  for_int_t lo hi (fun i w => Returned (g i w)) w = Returned (for_int lo hi g w).
Proof.
  unfold for_int_t, for_int. revert w.
  induction (seqZ lo (hi - lo)) as [|a l IH]; intros w; simpl; [reflexivity |].
  apply IH.
Qed.

(** What [compute] does once grid.txt has given an [info]. *)
Lemma compute_loaded bem grid_txt info start stop w :
  read_grid_info grid_txt = Value info ->
  compute bem grid_txt start stop w
  = if start =? stop
    then Returned (compute_potential bem ∅ info None (log "Writing solve cache" w))
    else Returned
           (for_int start stop
              (fun i w =>
                 compute_potential bem (activation info i) info
                   (Some (FIELD_PREFIX ++ string_of_int i ++ FIELD_SUFFIX))
                   (log ("Starting on electrode " ++ string_of_int i) w)) w).
Proof.
  intros H. unfold compute. rewrite H. unfold with_info.
  destruct (start =? stop); [reflexivity |].
  now rewrite <- for_int_t_returned.
Qed.

(** A loop whose every turn makes calls and logs lines, and leaves the
    files alone. *)
Lemma for_int_trace (body : Z -> world -> world) (a : Z -> list call)
    (b : Z -> list string) fs :
  (forall i cs co, body i (World cs fs co) = World (cs ++ a i) fs (co ++ b i)) ->
  forall lo hi cs co,
    for_int lo hi body (World cs fs co)
    = World (cs ++ (seqZ lo (hi - lo) ≫= a)) fs (co ++ (seqZ lo (hi - lo) ≫= b)).
Proof.
  intros Hbody lo hi. unfold for_int.
  induction (seqZ lo (hi - lo)) as [|x l IH]; intros cs co; simpl.
  - now rewrite !List.app_nil_r.
  - rewrite Hbody, IH. now rewrite <- !List.app_assoc.
Qed.

Lemma bind_unit {A B} (f : A -> B) (l : list A) : l ≫= (fun x => [f x]) = f <$> l.
Proof.
  induction l as [|x l IH]; [reflexivity |].
  rewrite bind_cons, IH. reflexivity.
Qed.

Lemma solves_app l k : solves (l ++ k) = (solves l + solves k)%nat.
Proof. unfold solves. now rewrite List.filter_app, List.length_app. Qed.

Lemma solves_fmap {A} (g : A -> call) (l : list A) :
  (forall x, is_solve (g x) = false) -> solves (g <$> l) = O.
Proof.
  intros H. unfold solves. induction l as [|x l IH]; simpl; [reflexivity |].
  now rewrite H.
Qed.

Lemma solves_build_and_solve info : solves (build_and_solve info) = 1%nat.
Proof.
  unfold build_and_solve. rewrite !solves_app, solves_fmap by reflexivity.
  reflexivity.
Qed.

Lemma solves_set_voltages electrodes info : solves (set_voltages electrodes info) = O.
Proof.
  unfold set_voltages. rewrite solves_app, solves_fmap by reflexivity. reflexivity.
Qed.

(** *** The grid, point by point *)

Lemma bind_length {A B} (f : A -> list B) (n : nat) (l : list A) :
  (forall x, length (f x) = n) -> length (l ≫= f) = (length l * n)%nat.
Proof.
  intros H. induction l as [|x l IH]; [reflexivity |].
  rewrite bind_cons, List.length_app, H, IH. reflexivity.
Qed.

Lemma bind_lookup {A B} (f : A -> list B) (n : nat) (l : list A) (i r : nat) (a : A) :
  (forall x, length (f x) = n) ->
  l !! i = Some a -> (r < n)%nat ->
  (l ≫= f) !! (i * n + r)%nat = f a !! r.
Proof.
  intros H. revert i. induction l as [|x l IH]; intros i Hi Hr; [discriminate |].
  rewrite bind_cons. destruct i as [|i]; simpl in Hi.
  - injection Hi as ->. apply lookup_app_l. rewrite H. lia.
  - rewrite lookup_app_r by (rewrite H; lia).
    rewrite H. replace (S i * n + r - n)%nat with (i * n + r)%nat by lia.
    now apply IH.
Qed.

Lemma grid_values_length phi info :
  0 <= dimx info -> 0 <= dimy info -> 0 <= dimz info ->
  length (grid_values phi info) = Z.to_nat (dimx info * dimy info * dimz info).
Proof.
  intros Hx Hy Hz. unfold grid_values.
  rewrite (bind_length _ (Z.to_nat (dimy info) * (Z.to_nat (dimz info) * 1))).
  - rewrite length_seqZ, !Z2Nat.inj_mul by lia. lia.
  - intros i. rewrite (bind_length _ (Z.to_nat (dimz info) * 1)).
    + now rewrite length_seqZ.
    + intros j. rewrite (bind_length _ 1%nat); [now rewrite length_seqZ | reflexivity].
Qed.

Lemma grid_values_lookup phi info i j k :
  0 <= i < dimx info -> 0 <= j < dimy info -> 0 <= k < dimz info ->
  grid_values phi info !! Z.to_nat ((i * dimy info + j) * dimz info + k)
  = Some (phi (coordinate (startx info) (endx info) (dimx info) i)
              (coordinate (starty info) (endy info) (dimy info) j)
              (coordinate (startz info) (endz info) (dimz info) k)).
Proof.
  intros Hi Hj Hk. unfold grid_values.
  set (ny := Z.to_nat (dimy info)). set (nz := Z.to_nat (dimz info)).
  replace (Z.to_nat ((i * dimy info + j) * dimz info + k))
    with (Z.to_nat i * (ny * (nz * 1)) + (Z.to_nat j * (nz * 1) + (Z.to_nat k * 1 + 0)))%nat.
  2:{ subst ny nz. apply Nat2Z.inj.
      assert (0 <= i * dimy info) by (apply Z.mul_nonneg_nonneg; lia).
      assert (0 <= (i * dimy info + j) * dimz info) by (apply Z.mul_nonneg_nonneg; lia).
      rewrite Z2Nat.id by lia. rewrite !Nat2Z.inj_add, !Nat2Z.inj_mul.
      rewrite (Z2Nat.id i), (Z2Nat.id j), (Z2Nat.id k),
        (Z2Nat.id (dimy info)), (Z2Nat.id (dimz info)) by lia.
      simpl Z.of_nat. ring. }
  assert (Hlen3 : forall i j : Z,
    length (seqZ 0 (dimz info) ≫= fun k =>
      [phi (coordinate (startx info) (endx info) (dimx info) i)
           (coordinate (starty info) (endy info) (dimy info) j)
           (coordinate (startz info) (endz info) (dimz info) k)]) = (nz * 1)%nat).
  { intros i0 j0. rewrite (bind_length _ 1%nat); [now rewrite length_seqZ | reflexivity]. }
  rewrite (bind_lookup _ (ny * (nz * 1)) _ _ _ i).
  - rewrite (bind_lookup _ (nz * 1) _ _ _ j).
    + rewrite (bind_lookup _ 1 _ _ _ k).
      * reflexivity.
      * reflexivity.
      * rewrite lookup_seqZ_lt by lia. f_equal. lia.
      * lia.
    + apply Hlen3.
    + rewrite lookup_seqZ_lt by lia. f_equal. lia.
    + subst nz. lia.
  - intros i0. rewrite (bind_length _ (nz * 1)); [now rewrite length_seqZ | apply Hlen3].
  - rewrite lookup_seqZ_lt by lia. f_equal. lia.
  - subst ny nz. nia.
Qed.

(** *** Passes, whatever the import does *)

Lemma for_int_step {St} lo hi (body : Z -> St -> St) s :
  lo < hi -> for_int lo hi body s = for_int (lo + 1) hi body (body lo s).
Proof.
  intros H. unfold for_int. rewrite (seqZ_cons lo (hi - lo)) by lia. simpl.
  now replace (Z.pred (hi - lo)) with (hi - (lo + 1)) by lia.
Qed.

Lemma for_int_invariant {St} (P : St -> Prop) lo hi (body : Z -> St -> St) s :
  P s -> (forall i s, P s -> P (body i s)) -> P (for_int lo hi body s).
Proof.
  intros Hs Hbody. unfold for_int. revert s Hs.
  induction (seqZ lo (hi - lo)) as [|x l IH]; intros s Hs; simpl; [exact Hs |].
  apply IH, Hbody, Hs.
Qed.

Lemma for_int_count {St} (m : St -> nat) lo hi (body : Z -> St -> St) s :
  (forall i s, m (body i s) = S (m s)) ->
  m (for_int lo hi body s) = (m s + Z.to_nat (hi - lo))%nat.
Proof.
  intros Hbody. unfold for_int. rewrite <- (length_seqZ lo (hi - lo)). revert s.
  induction (seqZ lo (hi - lo)) as [|x l IH]; intros s; simpl; [lia |].
  rewrite IH, Hbody. lia.
Qed.

(** A sampling pass either stops at the failed import, or builds, solves,
    sets the voltages and writes its file. *)
Lemma compute_potential_cases bem electrodes info name w :
  electrodes <> ∅ ->
  let w' := compute_potential bem electrodes info (Some name) w in
  (calls w' = (calls w ++ [Load "libbemsolver"; Mkdir "gen.cache" 0x1ff; Import importfilename])%list
   /\ files w' = files w)
  \/ (calls w' = (calls w ++ build_and_solve info ++ set_voltages electrodes info)%list
      /\ exists values, files w' = <[name := values]> (files w)).
Proof.
  intros Hne w'. subst w'.
  destruct (Import_ok bem (calls w ++ [Load "libbemsolver"; Mkdir "gen.cache" 0x1ff])%list
              importfilename) eqn:E.
  - right. destruct (compute_potential_sampling bem electrodes info name w E Hne) as [Hc Hf].
    split; [exact Hc | eexists; exact Hf].
  - left. rewrite (compute_potential_import_failed _ _ _ _ _ E). split; reflexivity.
Qed.

(** A priming pass either stops at the failed import, or builds and
    solves; it writes no file. *)
Lemma compute_potential_priming_cases bem info outfile w :
  let w' := compute_potential bem ∅ info outfile w in
  (calls w' = (calls w ++ [Load "libbemsolver"; Mkdir "gen.cache" 0x1ff; Import importfilename])%list
   \/ calls w' = (calls w ++ build_and_solve info)%list)
  /\ files w' = files w.
Proof.
  intros w'. subst w'.
  destruct (Import_ok bem (calls w ++ [Load "libbemsolver"; Mkdir "gen.cache" 0x1ff])%list
              importfilename) eqn:E.
  - rewrite (compute_potential_priming _ _ _ _ E). split; [right |]; reflexivity.
  - rewrite (compute_potential_import_failed _ _ _ _ _ E). split; [left |]; reflexivity.
Qed.

Lemma imports_app l k : imports (l ++ k) = (imports l + imports k)%nat.
Proof. unfold imports. now rewrite List.filter_app, List.length_app. Qed.

Lemma imports_fmap {A} (g : A -> call) (l : list A) :
  (forall x, is_import (g x) = false) -> imports (g <$> l) = O.
Proof.
  intros H. unfold imports. induction l as [|x l IH]; simpl; [reflexivity |].
  now rewrite H.
Qed.

Lemma imports_build_and_solve info : imports (build_and_solve info) = 1%nat.
Proof.
  unfold build_and_solve. rewrite !imports_app, imports_fmap by reflexivity.
  reflexivity.
Qed.

Lemma imports_set_voltages electrodes info : imports (set_voltages electrodes info) = O.
Proof.
  unfold set_voltages. rewrite imports_app, imports_fmap by reflexivity. reflexivity.
Qed.

(** *** What the calls of a pass do to the solved-world cache *)

Lemma library_after_app disk cs k :
  library_after disk (cs ++ k) = foldl library_call (library_after disk cs) k.
Proof. apply foldl_app. Qed.

Lemma library_call_fmap {A} (g : A -> call) (xs : list A) l :
  (forall x l, library_call l (g x) = l) -> foldl library_call l (g <$> xs) = l.
Proof.
  intros H. induction xs as [|x xs IH]; [reflexivity |].
  rewrite fmap_cons. simpl. now rewrite H.
Qed.

Lemma library_build_and_solve l info :
  foldl library_call l (build_and_solve info)
  = match saved l !! savedworldname with
    | Some _ => Library (saved l) (Some savedworldname) (solved l) (S (restored l))
    | None =>
        Library (<[savedworldname := S (solved l)]> (saved l)) (Some savedworldname)
                (S (solved l)) (restored l)
    end.
Proof.
  unfold build_and_solve. rewrite !foldl_app.
  rewrite library_call_fmap by reflexivity. reflexivity.
Qed.

Lemma library_set_voltages l electrodes info :
  foldl library_call l (set_voltages electrodes info) = l.
Proof.
  unfold set_voltages. rewrite foldl_app.
  rewrite library_call_fmap by reflexivity. reflexivity.
Qed.

(** Once the file holds a solved world, the calls of a pass leave it as
    it is, and every [solve] among them reads it back. *)
Lemma library_pass_primed l info electrodes k gen :
  saved l !! savedworldname = Some gen ->
  k = [Load "libbemsolver"; Mkdir "gen.cache" 0x1ff; Import importfilename]
  \/ k = build_and_solve info
  \/ k = (build_and_solve info ++ set_voltages electrodes info)%list ->
  let l' := foldl library_call l k in
  saved l' = saved l
  /\ solved l' = solved l
  /\ restored l' = (restored l + solves k)%nat.
Proof.
  intros Hgen [-> | [-> | ->]] l'; subst l'.
  - repeat split. unfold solves. simpl. lia.
  - rewrite library_build_and_solve, Hgen, solves_build_and_solve. simpl.
    repeat split. lia.
  - rewrite foldl_app, library_set_voltages, library_build_and_solve, Hgen.
    rewrite solves_app, solves_build_and_solve, solves_set_voltages. simpl.
    repeat split. lia.
Qed.

Lemma field_file_not_cache i : field_file i <> savedworldname.
Proof. unfold field_file, FIELD_PREFIX, savedworldname. discriminate. Qed.

End Driver.

(** ** Claims about the driver *)

Module DriverClaims.
Import Driver.

(** C10: with [start > stop] the loop of [compute] is not entered. Apart
    from reading grid.txt, which may throw, the call does nothing: no
    call into the solver, no file, no line logged. *)
Theorem compute_empty_range bem grid_txt start stop w :
  start > stop ->
  compute bem grid_txt start stop w
  = match read_grid_info grid_txt with
    | OutOfRange => Uncaught w
    | _ => Returned w
    end.
Proof.
  intros H. unfold compute.
  destruct (Z.eqb_spec start stop) as [-> | _]; [lia |].
  unfold for_int_t. rewrite seqZ_nil by lia.
  now destruct (read_grid_info grid_txt).
Qed.

Lemma compute_empty_range_witness :
  compute Example.ideal (Some Example.grid_txt) 2 1 Example.w0 = Returned Example.w0.
Proof.
  rewrite (compute_empty_range Example.ideal (Some Example.grid_txt) 2 1 Example.w0) by lia.
  vm_compute. reflexivity.
Defined.

(** C2: when [start = stop], whatever their value, [compute] makes one
    pass with the empty set and no output file. With the layout imported
    the pass opens the world on the cache path, inserts the electrodes,
    refines and solves; it sets no voltage, samples nothing and leaves the
    files as they were. *)
Theorem compute_priming bem grid_txt info start stop w :
  start = stop ->
  read_grid_info grid_txt = Value info ->
  import_succeeds bem w ->
  compute bem grid_txt start stop w
  = Returned (compute_potential bem ∅ info None (log "Writing solve cache" w))
  /\ compute bem grid_txt start stop w
     = Returned (World (calls w ++ build_and_solve info) (files w)
                       (cout w ++ ["Writing solve cache"; "Started solving...";
                                   "Done solving"]))
  /\ NewWorld savedworldname 0.00001 32 6 6 ∈ build_and_solve info
  /\ solves (build_and_solve info) = 1%nat
  /\ List.filter is_set_voltage (build_and_solve info) = [].
Proof.
  intros -> Hinfo Himp.
  rewrite (compute_loaded _ _ _ _ _ _ Hinfo), Z.eqb_refl.
  split; [reflexivity |]. split; [| split; [| split]].
  - rewrite compute_potential_priming by (destruct w; exact Himp).
    destruct w as [cs fs co]. cbn [log calls files cout].
    now rewrite <- List.app_assoc.
  - unfold build_and_solve. set_solver.
  - apply solves_build_and_solve.
  - unfold build_and_solve. rewrite !List.filter_app.
    cbn [List.filter is_set_voltage app].
    induction (seqZ 0 (total_electrodes info)) as [|x l IH]; [reflexivity |].
    exact IH.
Qed.

Lemma compute_priming_witness :
  compute Example.ideal (Some Example.grid_txt) 2 2 Example.w0
  = Returned (World (build_and_solve Example.info) ∅
                    ["Writing solve cache"; "Started solving..."; "Done solving"]).
Proof.
  apply (compute_priming Example.ideal (Some Example.grid_txt) Example.info 2 2 Example.w0).
  - reflexivity.
  - vm_compute. reflexivity.
  - reflexivity.
Defined.

Lemma elem_of_activation info i j :
  in_int (num_electrodes info + i) ->
  j ∈ activation info i <-> j = i \/ (0 < i /\ j = i + num_electrodes info).
Proof.
  intros Hr. unfold activation. rewrite (wrap_int_small _ Hr).
  destruct (Z.ltb_spec 0 i); set_unfold; lia.
Qed.

Lemma activation_nonempty info i : activation info i <> ∅.
Proof. unfold activation. destruct (0 <? i); set_solver. Qed.

(** C1: the pass for index [i] sets, before it samples, the voltage of
    every electrode [j] of [[0, 2 * num_electrodes + 2)], once and in
    ascending order: to 1 when [j] is [i] or, provided [i > 0], when [j]
    is [i + num_electrodes], to 0 otherwise; then it sets GROUND to 0. For
    [i = 0] the set handed to the pass is [{0}], for [i > 0] it is
    [{i, i + num_electrodes}]. Here [i + num_electrodes] and
    [2 * num_electrodes + 2] are taken to fit an [int]. *)
Theorem sampling_pass_voltages bem info i name w :
  in_int (num_electrodes info + i) ->
  in_int (2 * num_electrodes info + 2) ->
  import_succeeds bem w ->
  let n := num_electrodes info in
  let w' := compute_potential bem (activation info i) info (Some name) w in
  activation info 0 = {[ 0 ]}
  /\ (0 < i -> activation info i = {[ i; i + n ]})
  /\ calls w'
     = (calls w ++ build_and_solve info
        ++ ((fun j => SetVoltage (string_of_int j)
                        (if decide (j = i \/ (0 < i /\ j = i + n)) then 1%float else 0%float))
              <$> seqZ 0 (2 * n + 2))
        ++ [SetVoltage "GROUND" 0])%list
  /\ (0 <= i < 2 * n + 2 -> SetVoltage (string_of_int i) 1 ∈ calls w')
  /\ (0 < i -> i + n < 2 * n + 2 -> SetVoltage (string_of_int (i + n)) 1 ∈ calls w').
Proof.
  intros Hi Ht Himp n w'.
  assert (calls w'
     = (calls w ++ build_and_solve info
        ++ ((fun j => SetVoltage (string_of_int j)
                        (if decide (j = i \/ (0 < i /\ j = i + n)) then 1%float else 0%float))
              <$> seqZ 0 (2 * n + 2))
        ++ [SetVoltage "GROUND" 0])%list) as Hcalls.
  { subst w'.
    destruct (compute_potential_sampling bem _ info name w Himp (activation_nonempty info i))
      as [-> _].
    unfold set_voltages, total_electrodes. rewrite (wrap_int_small _ Ht).
    do 3 f_equal. apply list_fmap_ext. intros _ j _. f_equal.
    pose proof (elem_of_activation info i j Hi).
    destruct (decide (j ∈ activation info i)), (decide (j = i \/ (0 < i /\ j = i + n)));
      tauto. }
  split; [| split; [| split; [exact Hcalls | split]]].
  - unfold activation. simpl. set_solver.
  - intros Hpos. apply set_eq. intros j.
    rewrite (elem_of_activation info i j Hi). subst n. set_unfold. lia.
  - intros Hrange. rewrite Hcalls. rewrite !elem_of_app. right. right. left.
    apply list_elem_of_fmap. exists i. split.
    + rewrite decide_True by (left; reflexivity). reflexivity.
    + apply elem_of_seqZ. lia.
  - intros Hpos Hrange. rewrite Hcalls. rewrite !elem_of_app. right. right. left.
    apply list_elem_of_fmap. exists (i + n). split.
    + rewrite decide_True by (right; split; [exact Hpos | reflexivity]). reflexivity.
    + apply elem_of_seqZ. unfold in_int, Extract.INT_MIN in *. lia.
Qed.

Lemma sampling_pass_voltages_witness :
  let w' := compute_potential Example.ideal (activation Example.info 1) Example.info
              (Some "field1.txt") Example.w0 in
  SetVoltage "1" 1 ∈ calls w' /\ SetVoltage "4" 1 ∈ calls w'.
Proof.
  assert (in_int (num_electrodes Example.info + 1)) as H1
    by (unfold in_int, Extract.INT_MIN, Extract.INT_MAX; simpl; lia).
  assert (in_int (2 * num_electrodes Example.info + 2)) as H2
    by (unfold in_int, Extract.INT_MIN, Extract.INT_MAX; simpl; lia).
  assert (import_succeeds Example.ideal Example.w0) as H3 by reflexivity.
  destruct (sampling_pass_voltages Example.ideal Example.info 1 "field1.txt" Example.w0
              H1 H2 H3) as (_ & _ & _ & Ha & Hb).
  split; [apply Ha | apply Hb]; simpl; lia.
Defined.

(** C4: with the layout imported and at least two points on every axis, a
    sampling pass leaves in its output file one value for each point of
    the grid, [dimx * dimy * dimz] of them, X outermost and Z innermost:
    line [(i * dimy + j) * dimz + k] is the potential at
    [(startx + i * xstep, starty + j * ystep, startz + k * zstep)], where
    each step is [(end - start) / (dim - 1)]. *)
Theorem sampling_pass_output bem electrodes info name w :
  import_succeeds bem w ->
  electrodes <> ∅ ->
  2 <= dimx info <= Extract.INT_MAX ->
  2 <= dimy info <= Extract.INT_MAX ->
  2 <= dimz info <= Extract.INT_MAX ->
  let w' := compute_potential bem electrodes info (Some name) w in
  let phi := calc_slow bem (calls w') in
  let xstep := ((endx info - startx info) / double_of_int (dimx info - 1))%float in
  let ystep := ((endy info - starty info) / double_of_int (dimy info - 1))%float in
  let zstep := ((endz info - startz info) / double_of_int (dimz info - 1))%float in
  files w' = <[name := grid_values phi info]> (files w)
  /\ length (grid_values phi info) = Z.to_nat (dimx info * dimy info * dimz info)
  /\ forall i j k : Z,
       0 <= i < dimx info -> 0 <= j < dimy info -> 0 <= k < dimz info ->
       grid_values phi info !! Z.to_nat ((i * dimy info + j) * dimz info + k)
       = Some (phi (startx info + double_of_int i * xstep)%float
                   (starty info + double_of_int j * ystep)%float
                   (startz info + double_of_int k * zstep)%float).
Proof.
  intros Himp Hne Hx Hy Hz w' phi xstep ystep zstep.
  destruct (compute_potential_sampling bem electrodes info name w Himp Hne) as [Hc Hf].
  fold w' in Hc, Hf. rewrite <- Hc in Hf. fold phi in Hf.
  split; [exact Hf |]. split.
  - apply grid_values_length; lia.
  - intros i j k Hi Hj Hk. rewrite (grid_values_lookup phi info i j k Hi Hj Hk).
    unfold coordinate, xstep, ystep, zstep.
    rewrite !wrap_int_small
      by (unfold in_int, Extract.INT_MIN, Extract.INT_MAX in *; lia).
    reflexivity.
Qed.

Lemma sampling_pass_output_witness :
  let w' := compute_potential Example.ideal {[ 1; 4 ]} Example.info
              (Some "field1.txt") Example.w0 in
  files w' = {[ "field1.txt" := grid_values (calc_slow Example.ideal (calls w')) Example.info ]}
  /\ length (grid_values (calc_slow Example.ideal (calls w')) Example.info) = 8%nat.
Proof.
  assert (import_succeeds Example.ideal Example.w0) as H1 by reflexivity.
  assert (({[ 1; 4 ]} : gset Z) <> ∅) as H2 by set_solver.
  assert (2 <= 2 <= Extract.INT_MAX) as H3 by (unfold Extract.INT_MAX; lia).
  destruct (sampling_pass_output Example.ideal {[ 1; 4 ]} Example.info "field1.txt"
              Example.w0 H1 H2 H3 H3 H3) as (Hf & Hl & _).
  split; [exact Hf | exact Hl].
Defined.

(** What a run of calls that leaves the solved world alone does to the
    library, seen from the worlds before and after it. *)
Lemma cache_kept disk info electrodes w w' k gen :
  saved (library_after disk (calls w)) !! savedworldname = Some gen ->
  calls w' = (calls w ++ k)%list ->
  k = [Load "libbemsolver"; Mkdir "gen.cache" 0x1ff; Import importfilename]
  \/ k = build_and_solve info
  \/ k = (build_and_solve info ++ set_voltages electrodes info)%list ->
  saved (library_after disk (calls w')) = saved (library_after disk (calls w))
  /\ solved (library_after disk (calls w')) = solved (library_after disk (calls w))
  /\ (restored (library_after disk (calls w')) + solves (calls w)
      = restored (library_after disk (calls w)) + solves (calls w'))%nat.
Proof.
  intros Hgen Hc Hk. rewrite Hc, library_after_app, solves_app.
  destruct (library_pass_primed _ info electrodes k gen Hgen Hk) as (H1 & H2 & H3).
  cbv zeta in H1, H2, H3. rewrite H1, H2, H3. repeat split. lia.
Qed.

(** C6: with the library's use of its file taken from the specification,
    the solved-world cache is created once, by the priming call: in a
    working directory without one, a priming call whose import succeeds
    solves the system once and saves the solved world under
    [savedworldname]. Every call of [compute] made once the file is there,
    sampling or priming again, leaves it as it is and solves nothing:
    each [solve] of such a call reads the solved world back. The driver's
    own output never lands on the file of the cache. *)
Theorem cache_created_once bem disk grid_txt info :
  read_grid_info grid_txt = Value info ->
  (forall k w,
      import_succeeds bem w ->
      saved (library_after disk (calls w)) !! savedworldname = None ->
      exists w1,
        compute bem grid_txt k k w = Returned w1
        /\ saved (library_after disk (calls w1))
           = <[savedworldname := S (solved (library_after disk (calls w)))]>
               (saved (library_after disk (calls w)))
        /\ solved (library_after disk (calls w1))
           = S (solved (library_after disk (calls w))))
  /\ (forall start stop w gen,
      saved (library_after disk (calls w)) !! savedworldname = Some gen ->
      exists w2,
        compute bem grid_txt start stop w = Returned w2
        /\ saved (library_after disk (calls w2)) = saved (library_after disk (calls w))
        /\ solved (library_after disk (calls w2)) = solved (library_after disk (calls w))
        /\ (restored (library_after disk (calls w2)) + solves (calls w)
            = restored (library_after disk (calls w)) + solves (calls w2))%nat
        /\ files w2 !! savedworldname = files w !! savedworldname)
  /\ (forall i, field_file i <> savedworldname).
Proof.
  intros Hinfo. split; [| split].
  - intros k w Himp Hfresh.
    rewrite (compute_loaded _ _ _ _ _ _ Hinfo), Z.eqb_refl.
    eexists. split; [reflexivity |].
    rewrite (compute_potential_priming bem info None (log "Writing solve cache" w) Himp).
    cbn [calls log]. rewrite library_after_app, library_build_and_solve, Hfresh.
    split; reflexivity.
  - intros start stop w gen Hgen.
    rewrite (compute_loaded _ _ _ _ _ _ Hinfo).
    destruct (start =? stop).
    + eexists. split; [reflexivity |].
      destruct (compute_potential_priming_cases bem info None (log "Writing solve cache" w))
        as [Hc Hf].
      cbv zeta in Hc, Hf. cbn [calls files log] in Hc, Hf.
      rewrite Hf.
      assert (exists k, calls (compute_potential bem ∅ info None (log "Writing solve cache" w))
                        = (calls w ++ k)%list
                        /\ (k = [Load "libbemsolver"; Mkdir "gen.cache" 0x1ff;
                                 Import importfilename]
                            \/ k = build_and_solve info
                            \/ k = (build_and_solve info ++ set_voltages ∅ info)%list))
        as (k & Hk & Hshape).
      { destruct Hc as [Hc | Hc]; eexists; (split; [exact Hc |]); auto. }
      destruct (cache_kept disk info ∅ w _ k gen Hgen Hk Hshape) as (H1 & H2 & H3).
      repeat split; assumption.
    + eexists. split; [reflexivity |].
      apply (for_int_invariant
               (fun s : world =>
                  saved (library_after disk (calls s)) = saved (library_after disk (calls w))
                  /\ solved (library_after disk (calls s))
                     = solved (library_after disk (calls w))
                  /\ (restored (library_after disk (calls s)) + solves (calls w)
                      = restored (library_after disk (calls w)) + solves (calls s))%nat
                  /\ files s !! savedworldname = files w !! savedworldname)).
      * repeat split; reflexivity.
      * intros i s (Hs1 & Hs2 & Hs3 & Hs4).
        assert (saved (library_after disk (calls s)) !! savedworldname = Some gen) as Hgen'
          by (now rewrite Hs1).
        destruct (compute_potential_cases bem (activation info i) info
                    (FIELD_PREFIX ++ string_of_int i ++ FIELD_SUFFIX)
                    (log ("Starting on electrode " ++ string_of_int i) s)
                    (activation_nonempty info i)) as [[Hc Hf] | [Hc [values Hf]]];
          cbn [calls files log] in Hc, Hf.
        -- destruct (cache_kept disk info (activation info i) s _ _ gen Hgen' Hc)
             as (H1 & H2 & H3); [auto |].
           rewrite H1, H2, Hf. repeat split; try assumption. lia.
        -- destruct (cache_kept disk info (activation info i) s _ _ gen Hgen' Hc)
             as (H1 & H2 & H3); [auto |].
           rewrite H1, H2, Hf. repeat split; try assumption; [lia |].
           rewrite lookup_insert_ne; [exact Hs4 |]. apply (field_file_not_cache i).
  - apply field_file_not_cache.
Qed.

Lemma cache_created_once_witness :
  exists w1 w2,
    compute Example.ideal (Some Example.grid_txt) 0 0 Example.w0 = Returned w1
    /\ saved (library_after ∅ (calls w1)) = {[ savedworldname := 1%nat ]}
    /\ solved (library_after ∅ (calls w1)) = 1%nat
    /\ compute Example.ideal (Some Example.grid_txt) 0 3 w1 = Returned w2
    /\ saved (library_after ∅ (calls w2)) = saved (library_after ∅ (calls w1))
    /\ solved (library_after ∅ (calls w2)) = 1%nat.
Proof.
  assert (read_grid_info (Some Example.grid_txt) = Value Example.info) as Hinfo
    by (vm_compute; reflexivity).
  destruct (cache_created_once Example.ideal ∅ (Some Example.grid_txt) Example.info Hinfo)
    as (Hprime & Hkeep & _).
  destruct (Hprime 0 Example.w0) as (w1 & Hc1 & Hs1 & Hn1);
    [reflexivity | reflexivity |].
  destruct (Hkeep 0 3 w1 1%nat) as (w2 & Hc2 & Hs2 & Hn2 & _).
  { rewrite Hs1. apply lookup_insert_eq. }
  exists w1, w2. repeat split; try assumption.
  now rewrite Hn2, Hn1.
Defined.

(** X15: a pass whose layout import succeeds, priming or sampling, opens
    the world on the cache path and calls [solve] once. A sampling pass
    makes the very calls of a priming pass and then sets its voltages; the
    only file the driver itself writes is the output file of the pass. *)
Theorem every_pass_solves bem electrodes info name w :
  import_succeeds bem w ->
  electrodes <> ∅ ->
  let primed := compute_potential bem ∅ info None w in
  let sampled := compute_potential bem electrodes info (Some name) w in
  calls primed = (calls w ++ build_and_solve info)%list
  /\ calls sampled = (calls primed ++ set_voltages electrodes info)%list
  /\ NewWorld savedworldname 0.00001 32 6 6 ∈ build_and_solve info
  /\ solves (calls primed) = (solves (calls w) + 1)%nat
  /\ solves (calls sampled) = (solves (calls w) + 1)%nat
  /\ forall f, f <> name -> files sampled !! f = files w !! f.
Proof.
  intros Himp Hne primed sampled.
  destruct (compute_potential_sampling bem electrodes info name w Himp Hne) as [Hc Hf].
  fold sampled in Hc, Hf.
  assert (calls primed = (calls w ++ build_and_solve info)%list) as Hp.
  { subst primed. now rewrite compute_potential_priming. }
  split; [exact Hp |]. split; [| split; [| split; [| split]]].
  - rewrite Hc, Hp. now rewrite <- List.app_assoc.
  - unfold build_and_solve. set_solver.
  - rewrite Hp, solves_app, solves_build_and_solve. lia.
  - rewrite Hc, !solves_app, solves_build_and_solve, solves_set_voltages. lia.
  - intros f Hfn. rewrite Hf. now apply lookup_insert_ne.
Qed.

Lemma every_pass_solves_witness :
  solves (calls (compute_potential Example.ideal {[ 1; 4 ]} Example.info
                   (Some "field1.txt") Example.w0)) = 1%nat.
Proof.
  assert (import_succeeds Example.ideal Example.w0) as H1 by reflexivity.
  assert (({[ 1; 4 ]} : gset Z) <> ∅) as H2 by set_solver.
  destruct (every_pass_solves Example.ideal {[ 1; 4 ]} Example.info "field1.txt"
              Example.w0 H1 H2) as (_ & _ & _ & _ & Hs & _).
  exact Hs.
Defined.

(** C7 as stated fails: when the import of the layout fails in the pass
    for index 0, [compute] goes on to index 1 and writes its file. *)
Lemma sampling_continues_after_failed_import :
  exists w',
    compute Example.flaky (Some Example.grid_txt) 0 2 Example.w0 = Returned w'
    /\ cout w' = ["Starting on electrode 0"; "Starting on electrode 1";
                  "Started solving..."; "Done solving"; "Writing to 'field1.txt'";
                  "  Processing point 0 out of 8"; "  Processing point 4 out of 8";
                  "Finished processing."]
    /\ files w' !! "field0.txt" = None
    /\ length <$> files w' !! "field1.txt" = Some 8%nat.
Proof.
  eexists. split; [vm_compute; reflexivity |]. repeat split; vm_compute; reflexivity.
Qed.

(** C7, amended: a failed layout import is not propagated and does not
    end the call. The pass makes no further call, writes and logs nothing
    and returns, and [compute] goes on with the next index as a call
    started at that index would. Whatever the imports do, every index of
    [[start, stop)] gets its pass and its import attempt. Files that are
    there are left in place: a pass touches no file but its own. The
    exception of the grid loader does end the call, before any call into
    the solver. *)
Theorem import_failure_not_propagated :
  (forall bem electrodes info outfile w,
      Import_ok bem (calls w ++ [Load "libbemsolver"; Mkdir "gen.cache" 0x1ff]) importfilename = false ->
      compute_potential bem electrodes info outfile w
      = World (calls w ++ [Load "libbemsolver"; Mkdir "gen.cache" 0x1ff; Import importfilename])
              (files w) (cout w))
  /\ (forall bem grid_txt info i stop w,
      read_grid_info grid_txt = Value info ->
      i + 1 < stop ->
      Import_ok bem (calls w ++ [Load "libbemsolver"; Mkdir "gen.cache" 0x1ff]) importfilename = false ->
      compute bem grid_txt i stop w
      = compute bem grid_txt (i + 1) stop
          (World (calls w ++ [Load "libbemsolver"; Mkdir "gen.cache" 0x1ff; Import importfilename])
                 (files w)
                 (cout w ++ ["Starting on electrode " ++ string_of_int i])))
  /\ (forall bem grid_txt info start stop w,
      read_grid_info grid_txt = Value info ->
      start < stop ->
      exists w',
        compute bem grid_txt start stop w = Returned w'
        /\ imports (calls w') = (imports (calls w) + Z.to_nat (stop - start))%nat)
  /\ (forall bem info i name w f,
      f <> name ->
      files (compute_potential bem (activation info i) info (Some name) w) !! f
      = files w !! f)
  /\ (forall bem grid_txt start stop w,
      read_grid_info grid_txt = OutOfRange ->
      compute bem grid_txt start stop w = Uncaught w).
Proof.
  split; [| split; [| split; [| split]]].
  - intros. now apply compute_potential_import_failed.
  - intros bem grid_txt info i stop w Hinfo Hlt Hfail.
    rewrite !(compute_loaded _ _ _ _ _ _ Hinfo).
    destruct (Z.eqb_spec i stop) as [-> | _]; [lia |].
    destruct (Z.eqb_spec (i + 1) stop) as [E | _]; [lia |].
    f_equal. rewrite for_int_step by lia. f_equal.
    now rewrite compute_potential_import_failed by exact Hfail.
  - intros bem grid_txt info start stop w Hinfo Hlt.
    rewrite (compute_loaded _ _ _ _ _ _ Hinfo).
    destruct (Z.eqb_spec start stop) as [-> | _]; [lia |].
    eexists. split; [reflexivity |].
    apply (for_int_count (fun s : world => imports (calls s))).
    intros i s.
    destruct (compute_potential_cases bem (activation info i) info
                (FIELD_PREFIX ++ string_of_int i ++ FIELD_SUFFIX)
                (log ("Starting on electrode " ++ string_of_int i) s)
                (activation_nonempty info i)) as [[Hc _] | [Hc _]];
      cbn [calls log] in Hc; rewrite Hc, !imports_app.
    + unfold imports at 2. simpl. lia.
    + rewrite imports_build_and_solve, imports_set_voltages. lia.
  - intros bem info i name w f Hf.
    destruct (compute_potential_cases bem (activation info i) info name w
                (activation_nonempty info i)) as [[_ H] | [_ [values H]]];
      rewrite H; [reflexivity |].
    now apply lookup_insert_ne.
  - intros bem grid_txt start stop w H. unfold compute. now rewrite H.
Qed.

Lemma import_failure_not_propagated_witness :
  compute Example.flaky (Some Example.grid_txt) 0 2 Example.w0
  = compute Example.flaky (Some Example.grid_txt) 1 2
      (World [Load "libbemsolver"; Mkdir "gen.cache" 0x1ff; Import importfilename]
             ∅ ["Starting on electrode 0"]).
Proof.
  apply (proj1 (proj2 import_failure_not_propagated)
           Example.flaky (Some Example.grid_txt) Example.info 0 2 Example.w0).
  - vm_compute. reflexivity.
  - lia.
  - reflexivity.
Defined.

End DriverClaims.

(** * Further properties *)

(** ** White space after a number *)

Module ExtractFacts.
Import Str StrFacts Extract.

Lemma all_space_cons c s : all_space (String c s) = is_space c && all_space s.
Proof. reflexivity. Qed.

(** A white space character is no part of a number. *)
Lemma is_space_not_numeric c :
  is_space c = true ->
  digit c = None
  /\ Ascii.eqb c "-" = false /\ Ascii.eqb c "+" = false /\ Ascii.eqb c "." = false
  /\ Ascii.eqb c "e" = false /\ Ascii.eqb c "E" = false.
Proof.
  destruct c as [[] [] [] [] [] [] [] []]; intros H; try discriminate H;
    repeat split; reflexivity.
Qed.

Lemma blank_is_space c : mem c blanks = true -> is_space c = true.
Proof.
  destruct c as [[] [] [] [] [] [] [] []]; intros H; try discriminate H; reflexivity.
Qed.

Lemma all_blank_all_space s : all_blank s = true -> all_space s = true.
Proof.
  induction s as [|c s IH]; [reflexivity |].
  rewrite all_blank_cons, all_space_cons.
  intros [Hc Hs]%andb_true_iff. now rewrite (blank_is_space _ Hc), IH.
Qed.

(** The pattern matches of [sign] and [double], by comparisons. *)
Lemma sign_eq s :
  sign s
  = match s with
    | EmptyString => (false, EmptyString)
    | String c s' =>
        if Ascii.eqb c "-" then (true, s')
        else if Ascii.eqb c "+" then (false, s')
        else (false, s)
    end.
Proof.
  destruct s as [|c s]; [reflexivity |].
  destruct c as [[] [] [] [] [] [] [] []]; reflexivity.
Qed.

Lemma fraction_eq s ip :
  match s with
  | String "."%char s' => digits s' ip O
  | _ => (ip, O, s)
  end
  = match s with
    | EmptyString => (ip, O, EmptyString)
    | String c s' => if Ascii.eqb c "." then digits s' ip O else (ip, O, s)
    end.
Proof.
  destruct s as [|c s]; [reflexivity |].
  destruct c as [[] [] [] [] [] [] [] []]; reflexivity.
Qed.

Lemma digits_cons c s acc n :
  digits (String c s) acc n
  = match digit c with
    | Some d => digits s (10 * acc + d) (S n)
    | None => (acc, n, String c s)
    end.
Proof. reflexivity. Qed.

(** The digits stop where the white space starts. *)
Lemma digits_space t acc n : all_space t = true -> digits t acc n = (acc, n, t).
Proof.
  destruct t as [|c t]; [reflexivity |].
  rewrite all_space_cons. intros [Hc _]%andb_true_iff.
  rewrite digits_cons. now destruct (is_space_not_numeric c Hc) as (-> & _).
Qed.

Lemma digits_app_space r t acc n :
  all_space t = true ->
  digits (r ++ t) acc n = let '(v, k, r') := digits r acc n in (v, k, r' ++ t).
Proof.
  intros Ht. revert acc n. induction r as [|c r IH]; intros acc n.
  - change ("" ++ t) with t. now rewrite digits_space.
  - rewrite app_cons, !digits_cons. destruct (digit c); [apply IH | reflexivity].
Qed.

Lemma sign_space t : all_space t = true -> sign t = (false, t).
Proof.
  destruct t as [|c t]; [reflexivity |].
  rewrite all_space_cons. intros [Hc _]%andb_true_iff.
  rewrite sign_eq. destruct (is_space_not_numeric c Hc) as (_ & -> & -> & _).
  reflexivity.
Qed.

Lemma sign_app_space u t :
  all_space t = true ->
  sign (u ++ t) = let (b, r) := sign u in (b, r ++ t).
Proof.
  intros Ht. destruct u as [|c u].
  - change ("" ++ t) with t. now rewrite sign_space.
  - rewrite app_cons, !sign_eq.
    destruct (Ascii.eqb c "-"); [reflexivity |].
    destruct (Ascii.eqb c "+"); reflexivity.
Qed.

Lemma skipws_space t : all_space t = true -> skipws t = "".
Proof.
  induction t as [|c t IH]; [reflexivity |].
  rewrite all_space_cons. intros [Hc Ht]%andb_true_iff.
  simpl. now rewrite Hc, IH.
Qed.

Lemma skipws_app_space s t :
  all_space t = true ->
  skipws (s ++ t) = match skipws s with
                    | EmptyString => EmptyString
                    | u => u ++ t
                    end.
Proof.
  intros Ht. induction s as [|c s IH].
  - change ("" ++ t) with t. now rewrite skipws_space.
  - rewrite app_cons. simpl. destruct (is_space c); [exact IH | reflexivity].
Qed.

(** [stm >> val] stops at white space: what follows it does not count. *)
Lemma int_app_space s t : all_space t = true -> Extract.int (s ++ t) = Extract.int s.
Proof.
  intros Ht. unfold Extract.int. rewrite (skipws_app_space _ _ Ht).
  destruct (skipws s) as [|c u]; [reflexivity |].
  rewrite (sign_app_space _ _ Ht). destruct (sign (String c u)) as [neg r].
  rewrite (digits_app_space _ _ _ _ Ht). now destruct (digits r 0 0) as [[v k] r'].
Qed.

Lemma exponent_app_space s t : all_space t = true -> exponent (s ++ t) = exponent s.
Proof.
  intros Ht. destruct s as [|c s].
  - change ("" ++ t) with t. destruct t as [|c t]; [reflexivity |].
    rewrite all_space_cons in Ht. apply andb_true_iff in Ht as [Hc _].
    unfold exponent. destruct (is_space_not_numeric c Hc) as (_ & _ & _ & _ & -> & ->).
    reflexivity.
  - rewrite app_cons. unfold exponent.
    destruct (Ascii.eqb c "e" || Ascii.eqb c "E"); [| reflexivity].
    rewrite (sign_app_space _ _ Ht). destruct (sign s) as [neg r].
    rewrite (digits_app_space _ _ _ _ Ht). now destruct (digits r 0 0) as [[v k] r'].
Qed.

Lemma double_app_space s t : all_space t = true -> Extract.double (s ++ t) = Extract.double s.
Proof.
  intros Ht. unfold Extract.double. rewrite (skipws_app_space _ _ Ht).
  destruct (skipws s) as [|c u]; [reflexivity |].
  rewrite (sign_app_space _ _ Ht). destruct (sign (String c u)) as [neg s1].
  rewrite (digits_app_space _ _ _ _ Ht). destruct (digits s1 0 0) as [[ip n1] s2].
  rewrite !fraction_eq. destruct s2 as [|d s2].
  - change ("" ++ t) with t.
    assert (match t with
            | EmptyString => (ip, O, EmptyString)
            | String c0 s' => if Ascii.eqb c0 "." then digits s' ip O else (ip, O, t)
            end = (ip, O, t)) as ->.
    { destruct t as [|c0 t]; [reflexivity |].
      rewrite all_space_cons in Ht. apply andb_true_iff in Ht as [Hc _].
      now destruct (is_space_not_numeric c0 Hc) as (_ & _ & _ & -> & _). }
    change t with ("" ++ t) at 1. now rewrite (exponent_app_space _ _ Ht).
  - rewrite app_cons. destruct (Ascii.eqb d ".").
    + rewrite (digits_app_space _ _ _ _ Ht). destruct (digits s2 ip 0) as [[m n2] s3].
      now rewrite (exponent_app_space _ _ Ht).
    + rewrite <- app_cons. now rewrite (exponent_app_space _ _ Ht).
Qed.

End ExtractFacts.

(** ** More on the loader *)

Module LoaderMore.
Import Str StrFacts Loader.

(** *** Searching in a line with a prefix *)

Lemma last_index_cons p c s :
  last_index p (String c s)
  = match last_index p s with
    | Some i => Some (S i)
    | None => if p c then Some O else None
    end.
Proof. reflexivity. Qed.

Lemma first_index_app_none p a s :
  first_index p a = None ->
  first_index p (a ++ s) = (fun i => (String.length a + i)%nat) <$> first_index p s.
Proof.
  induction a as [|c a IH]; intros H.
  - change ("" ++ s) with s. destruct (first_index p s); reflexivity.
  - rewrite first_index_cons in H. rewrite app_cons, first_index_cons.
    destruct (p c); [discriminate |].
    destruct (first_index p a) as [k|]; [discriminate |].
    rewrite (IH eq_refl). destruct (first_index p s); reflexivity.
Qed.

Lemma last_index_app_some p a s e :
  last_index p s = Some e ->
  last_index p (a ++ s) = Some (String.length a + e)%nat.
Proof.
  intros H. induction a as [|c a IH]; [exact H |].
  rewrite app_cons, last_index_cons, IH. reflexivity.
Qed.

Lemma last_index_app_blank p s t :
  last_index p t = None ->
  last_index p (s ++ t) = last_index p s.
Proof.
  intros H. induction s as [|c s IH]; [exact H |].
  rewrite app_cons, !last_index_cons, IH. reflexivity.
Qed.

Lemma last_index_all_blank s :
  all_blank s = true -> last_index nonblank s = None.
Proof.
  induction s as [|c s IH]; [reflexivity |].
  rewrite all_blank_cons, last_index_cons.
  intros [Hc Hs]%andb_true_iff. rewrite (IH Hs). unfold nonblank. now rewrite Hc.
Qed.

Lemma mem_app c s t : mem c (s ++ t) = mem c s || mem c t.
Proof.
  induction s as [|a s IH]; [reflexivity |].
  rewrite app_cons, !mem_cons, IH. now rewrite orb_assoc.
Qed.

Lemma mem_LF_all_blank s : all_blank s = true -> mem LF s = false.
Proof.
  induction s as [|c s IH]; [reflexivity |].
  rewrite all_blank_cons, mem_cons.
  intros [Hc Hs]%andb_true_iff. rewrite (IH Hs), orb_false_r.
  destruct (Ascii.eqb_spec c LF) as [-> | _]; [discriminate Hc | reflexivity].
Qed.

Lemma pos_of_inj a b :
  (Z.of_nat a < npos) -> pos_of (Some a) = pos_of (Some b) -> a = b.
Proof. simpl. lia. Qed.

Lemma take_app_le n s t :
  (String.length s <= n)%nat -> take n (s ++ t) = s ++ take (n - String.length s) t.
Proof.
  revert n. induction s as [|c s IH]; intros n Hn.
  - simpl String.length. now rewrite Nat.sub_0_r.
  - destruct n as [|n]; simpl in Hn; [lia |].
    rewrite app_cons. simpl. rewrite IH by lia. reflexivity.
Qed.

Lemma all_blank_take n s : all_blank s = true -> all_blank (take n s) = true.
Proof.
  revert n. induction s as [|c s IH]; intros [|n] H; try reflexivity.
  rewrite all_blank_cons in H. apply andb_true_iff in H as [Hc Hs].
  simpl take. rewrite all_blank_cons, Hc. now apply IH.
Qed.

(** *** When [parse_param] throws *)

(** X1: [parse_param] throws exactly when the first column of the line
    that is not a blank lies beyond the length of what follows the first
    colon (a line without such a column counts as [npos]). *)
Theorem parse_param_throws_iff {T : Type} (extract : string -> option T) (i : ifstream) :
  size (getline i).1 < npos ->
  (parse_param extract i).1 = OutOfRange
  <-> size (after_colon (getline i).1) < find_first_not_of (getline i).1 blanks.
Proof.
  unfold parse_param. destruct (getline i) as [line i']. simpl fst. intros Hsize.
  pose proof (idx_le_size line Hsize) as Hidx.
  rewrite (substr_from _ _ Hidx Hsize). fold (after_colon line).
  unfold substr at 1.
  destruct (Z.ltb_spec (size (after_colon line)) (find_first_not_of line blanks)) as [Hlt | Hge].
  - simpl. tauto.
  - destruct (extract _); simpl; split; (discriminate || lia).
Qed.

Lemma parse_param_throws_iff_witness :
  (parse_param Extract.int (Ifstream "   dimx: 5" true)).1 = OutOfRange
  <-> size " 5" < 3.
Proof.
  apply (parse_param_throws_iff Extract.int (Ifstream "   dimx: 5" true)).
  vm_compute. reflexivity.
Defined.

(** *** Blanks before and after a value line *)

Lemma tight_first vl : tight vl -> first_index nonblank vl = Some O.
Proof.
  intros (_ & Hf & _ & Hs). unfold find_first_not_of in Hf. fold nonblank in Hf.
  destruct (first_index nonblank vl) as [k|]; simpl in Hf.
  - f_equal. lia.
  - unfold npos, size_max in Hf. lia.
Qed.

Lemma tight_last vl :
  tight vl -> exists e, last_index nonblank vl = Some e /\ Z.of_nat e = size vl - 1.
Proof.
  intros (_ & _ & Hl & Hs). unfold find_last_not_of in Hl. fold nonblank in Hl.
  destruct (last_index nonblank vl) as [e|]; simpl in Hl.
  - now exists e.
  - lia.
Qed.

Lemma first_index_app_some p s t k :
  first_index p s = Some k -> first_index p (s ++ t) = Some k.
Proof.
  revert k. induction s as [|c s IH]; intros k; [discriminate |].
  rewrite app_cons, !first_index_cons. destruct (p c); [easy |].
  destruct (first_index p s) as [j|]; [| discriminate].
  intros [= <-]. now rewrite (IH j eq_refl).
Qed.

Lemma wrap_small z : 0 <= z < npos -> wrap z = z.
Proof. unfold wrap, npos. intros H. apply Z.mod_small. lia. Qed.

(** X2: blanks in front of a well-formed value line are counted off the
    payload. With [k] blanks of indentation [parse_param] extracts from the
    payload without its first [k] characters, and throws when the payload
    is shorter than [k]. *)
Theorem parse_param_indented {T : Type} (extract : string -> option T)
    (indent label payload rest : string) :
  all_blank indent = true ->
  well_formed label payload ->
  size (indent ++ value_line label payload) < npos ->
  parse_param extract
    (Ifstream (indent ++ value_line label payload ++ String LF rest) true)
  = (if size payload <? size indent then OutOfRange
     else from_extraction (extract (drop (String.length indent) payload)),
     Ifstream rest true).
Proof.
  intros Hind [Hlab Ht] Hsize.
  pose proof (tight_first _ Ht) as Hfirst.
  destruct (tight_last _ Ht) as (e & Hlast & He).
  destruct Ht as (Hlf & _ & _ & _).
  set (vl := value_line label payload) in *. set (line := indent ++ vl) in *.
  rewrite <- app_assoc. fold line.
  assert (mem LF line = false) as Hlf'.
  { subst line. now rewrite mem_app, (mem_LF_all_blank _ Hind), Hlf. }
  unfold parse_param. rewrite (getline_app _ _ Hlf').
  pose proof (idx_le_size line Hsize) as Hidx.
  rewrite (substr_from _ _ Hidx Hsize). fold (after_colon line).
  assert (after_colon line = payload) as ->.
  { subst line vl. unfold value_line in *. rewrite <- app_assoc.
    apply after_colon_labelled.
    - rewrite mem_app, Hlab, orb_false_r.
      unfold find. assert (first_index (Ascii.eqb ":") indent = None) as H
        by now apply first_index_colon_blank.
      clear -H. induction indent as [|c s IH]; [reflexivity |].
      rewrite first_index_cons in H. rewrite mem_cons, Ascii.eqb_sym.
      destruct (Ascii.eqb ":" c); [discriminate |].
      destruct (first_index (Ascii.eqb ":") s); [discriminate |]. now apply IH.
    - now rewrite app_assoc. }
  unfold find_first_not_of, find_last_not_of. fold nonblank.
  subst line.
  rewrite (first_index_app_none _ _ _ (first_index_all_blank _ Hind)), Hfirst.
  rewrite (last_index_app_some _ _ _ _ Hlast). simpl pos_of.
  rewrite size_app in Hsize. pose proof (size_nonneg indent). pose proof (size_nonneg payload).
  assert (size payload <= size vl) as Hpl.
  { subst vl. unfold value_line. rewrite !size_app. pose proof (size_nonneg label).
    pose proof (size_nonneg ":"). lia. }
  replace (wrap (Z.of_nat (String.length indent + e)
                 - Z.of_nat (String.length indent + 0) + 1)) with (size vl)
    by (rewrite wrap_small; lia).
  replace (Z.of_nat (String.length indent + 0)) with (size indent)
    by (unfold size; lia).
  unfold substr. destruct (Z.ltb_spec (size payload) (size indent)); [reflexivity |].
  rewrite take_all.
  - replace (Z.to_nat (size indent)) with (String.length indent) by (unfold size; lia).
    unfold from_extraction. now destruct (extract _).
  - rewrite length_drop. unfold size in *. lia.
Qed.

Lemma parse_param_indented_witness :
  parse_param Extract.int (Ifstream ("  " ++ value_line "dimx" " 12345" ++ String LF "") true)
  = (Value 2345, Ifstream "" true).
Proof.
  apply (parse_param_indented Extract.int "  " "dimx" " 12345" "").
  - reflexivity.
  - repeat split; vm_compute; reflexivity.
  - vm_compute. reflexivity.
Defined.

Lemma from_extraction_eq {T : Type} (o : option T) (i : ifstream) :
  match o with
  | Some val => (Value val, i)
  | None => (Failbit, i)
  end = (from_extraction o, i).
Proof. now destruct o. Qed.

(** With blanks after a well-formed value line, what [parse_param]
    extracts from is the payload followed by some of these blanks. *)
Lemma parse_param_trailing {T : Type} (extract : string -> option T)
    (label payload trail rest : string) :
  all_blank trail = true ->
  well_formed label payload ->
  size (value_line label payload ++ trail) < npos ->
  exists t,
    all_blank t = true
    /\ parse_param extract
         (Ifstream (value_line label payload ++ trail ++ String LF rest) true)
       = (from_extraction (extract (payload ++ t)), Ifstream rest true).
Proof.
  intros Htr [Hlab Ht] Hsize.
  pose proof (tight_first _ Ht) as Hfirst.
  destruct (tight_last _ Ht) as (e & Hlast & He).
  destruct Ht as (Hlf & _ & _ & _).
  set (vl := value_line label payload) in *. set (line := vl ++ trail) in *.
  rewrite <- app_assoc. fold line.
  assert (mem LF line = false) as Hlf'.
  { subst line. now rewrite mem_app, (mem_LF_all_blank _ Htr), Hlf. }
  unfold parse_param. rewrite (getline_app _ _ Hlf').
  pose proof (idx_le_size line Hsize) as Hidx.
  rewrite (substr_from _ _ Hidx Hsize). fold (after_colon line).
  assert (after_colon line = payload ++ trail) as ->.
  { subst line vl. unfold value_line in *. rewrite !app_assoc.
    apply after_colon_labelled; [exact Hlab |]. now rewrite !app_assoc in Hsize. }
  unfold find_first_not_of, find_last_not_of. fold nonblank.
  subst line.
  rewrite (first_index_app_some _ _ _ _ Hfirst).
  rewrite (last_index_app_blank _ _ _ (last_index_all_blank _ Htr)), Hlast.
  simpl pos_of.
  rewrite size_app in Hsize. pose proof (size_nonneg trail). pose proof (size_nonneg payload).
  assert (size payload <= size vl) as Hpl.
  { subst vl. unfold value_line. rewrite !size_app. pose proof (size_nonneg label).
    pose proof (size_nonneg ":"). lia. }
  change (Z.of_nat 0) with 0.
  replace (wrap (Z.of_nat e - 0 + 1)) with (size vl) by (rewrite wrap_small; lia).
  unfold substr. rewrite size_app.
  destruct (Z.ltb_spec (size payload + size trail) 0); [lia |].
  simpl drop. rewrite take_app_le by (unfold size in *; lia).
  rewrite from_extraction_eq.
  eexists. split; [| reflexivity]. apply all_blank_take, Htr.
Qed.

(** X3: blanks after the value do no harm. A well-formed value line
    followed by spaces and tabs gives the number of its payload, for an
    [int] and for a [double]. *)
Theorem parse_param_trailing_blanks (label payload trail rest : string) :
  all_blank trail = true ->
  well_formed label payload ->
  size (value_line label payload ++ trail) < npos ->
  parse_param Extract.int
    (Ifstream (value_line label payload ++ trail ++ String LF rest) true)
  = (from_extraction (Extract.int payload), Ifstream rest true)
  /\ parse_param Extract.double
       (Ifstream (value_line label payload ++ trail ++ String LF rest) true)
     = (from_extraction (Extract.double payload), Ifstream rest true).
Proof.
  intros Htr Hwf Hsize. split.
  - destruct (parse_param_trailing Extract.int label payload trail rest Htr Hwf Hsize)
      as (t & Hb & ->).
    now rewrite (ExtractFacts.int_app_space _ _ (ExtractFacts.all_blank_all_space _ Hb)).
  - destruct (parse_param_trailing Extract.double label payload trail rest Htr Hwf Hsize)
      as (t & Hb & ->).
    now rewrite (ExtractFacts.double_app_space _ _ (ExtractFacts.all_blank_all_space _ Hb)).
Qed.

Lemma parse_param_trailing_blanks_witness :
  parse_param Extract.int
    (Ifstream (value_line "dimx" " 2" ++ "   " ++ String LF "") true)
  = (Value 2, Ifstream "" true).
Proof.
  apply (parse_param_trailing_blanks "dimx" " 2" "   " "").
  - reflexivity.
  - repeat split; vm_compute; reflexivity.
  - vm_compute. reflexivity.
Defined.

(** X4: a carriage return before the line feed does no harm either. The
    lines of a file with CR LF line ends give the numbers of their
    payloads. *)
Theorem parse_param_crlf (label payload rest : string) :
  well_formed label (payload ++ String CR "") ->
  parse_param Extract.int
    (Ifstream (value_line label (payload ++ String CR "") ++ String LF rest) true)
  = (from_extraction (Extract.int payload), Ifstream rest true)
  /\ parse_param Extract.double
       (Ifstream (value_line label (payload ++ String CR "") ++ String LF rest) true)
     = (from_extraction (Extract.double payload), Ifstream rest true).
Proof.
  intros Hwf. split.
  - rewrite (LoaderClaims.parse_param_value_line Extract.int _ _ rest Hwf).
    now rewrite ExtractFacts.int_app_space.
  - rewrite (LoaderClaims.parse_param_value_line Extract.double _ _ rest Hwf).
    now rewrite ExtractFacts.double_app_space.
Qed.

Lemma parse_param_crlf_witness :
  parse_param Extract.double
    (Ifstream (value_line "endx" (" 1.5" ++ String CR "") ++ String LF "") true)
  = (Value 1.5%float, Ifstream "" true).
Proof.
  apply (parse_param_crlf "endx" " 1.5" "").
  repeat split; vm_compute; reflexivity.
Defined.

(** *** The file, line by line *)

Lemma read_line_no_LF line : mem LF line = false -> read_line line = (line, None).
Proof.
  induction line as [|c line IH]; intros H; [reflexivity |].
  rewrite mem_cons in H. apply orb_false_iff in H as [Hc Hl].
  simpl. now rewrite Hc, (IH Hl).
Qed.

Lemma getline_last line :
  mem LF line = false -> getline (Ifstream line true) = (line, Ifstream "" false).
Proof. intros H. unfold getline. simpl. now rewrite (read_line_no_LF _ H). Qed.

(** A line that ends in a line feed is parsed as it is alone. *)
Lemma parse_param_line {T : Type} (extract : string -> option T) line rest :
  mem LF line = false ->
  parse_param extract (Ifstream (line ++ String LF rest) true)
  = (parse_value extract line, Ifstream rest true).
Proof.
  intros H. unfold parse_value, parse_param.
  rewrite (getline_app _ _ H), (getline_last _ H).
  repeat case_match; reflexivity.
Qed.

(** So is a last line that does not. *)
Lemma parse_param_last {T : Type} (extract : string -> option T) line :
  mem LF line = false ->
  parse_param extract (Ifstream line true)
  = (parse_value extract line, Ifstream "" false).
Proof.
  intros H. unfold parse_value, parse_param. rewrite (getline_last _ H).
  repeat case_match; reflexivity.
Qed.

(** The loader on a header and ten lines, each ended by a line feed. *)
Lemma read_grid_info_lines h l1 l2 l3 l4 l5 l6 l7 l8 l9 l10 rest :
  Forall (fun l => mem LF l = false) [h; l1; l2; l3; l4; l5; l6; l7; l8; l9; l10] ->
  read_grid_info (Some (text [h; l1; l2; l3; l4; l5; l6; l7; l8; l9; l10] rest))
  = fields_in_order
      (parse_value Extract.int l1) (parse_value Extract.int l2)
      (parse_value Extract.int l3) (parse_value Extract.int l4)
      (parse_value Extract.double l5) (parse_value Extract.double l6)
      (parse_value Extract.double l7) (parse_value Extract.double l8)
      (parse_value Extract.double l9) (parse_value Extract.double l10).
Proof.
  intros H. repeat (apply Forall_cons_1 in H as [? H]).
  unfold read_grid_info, ifstream_open. rewrite !LoaderClaims.text_cons.
  rewrite getline_app by assumption.
  rewrite !parse_param_line by assumption. reflexivity.
Qed.

(** The loader on a header and ten lines, the last of which is not ended. *)
Lemma read_grid_info_lines_open h l1 l2 l3 l4 l5 l6 l7 l8 l9 l10 :
  Forall (fun l => mem LF l = false) [h; l1; l2; l3; l4; l5; l6; l7; l8; l9; l10] ->
  read_grid_info (Some (text [h; l1; l2; l3; l4; l5; l6; l7; l8; l9] l10))
  = fields_in_order
      (parse_value Extract.int l1) (parse_value Extract.int l2)
      (parse_value Extract.int l3) (parse_value Extract.int l4)
      (parse_value Extract.double l5) (parse_value Extract.double l6)
      (parse_value Extract.double l7) (parse_value Extract.double l8)
      (parse_value Extract.double l9) (parse_value Extract.double l10).
Proof.
  intros H. repeat (apply Forall_cons_1 in H as [? H]).
  unfold read_grid_info, ifstream_open. rewrite !LoaderClaims.text_cons.
  rewrite getline_app by assumption.
  rewrite !parse_param_line by assumption.
  change (text [] l10) with l10. rewrite parse_param_last by assumption.
  reflexivity.
Qed.

(** X5: what the loader returns is decided by the ten lines after the
    first alone. The first line may be anything, so may all that follows
    the eleventh, and the eleventh need not end in a line feed. *)
Theorem read_grid_info_ten_lines (h h' rest rest' : string) (ls : list string) :
  length ls = 10%nat ->
  mem LF h = false -> mem LF h' = false ->
  Forall (fun l => mem LF l = false) ls ->
  read_grid_info (Some (text (h :: ls) rest))
  = read_grid_info (Some (text (h' :: ls) rest'))
  /\ read_grid_info (Some (text (h :: removelast ls) (List.last ls "")))
     = read_grid_info (Some (text (h :: ls) rest)).
Proof.
  intros Hlen Hh Hh' Hls.
  do 10 (destruct ls as [|? ls]; [discriminate Hlen |]).
  destruct ls; [| discriminate Hlen].
  assert (forall x, mem LF x = false ->
            Forall (fun l => mem LF l = false) (x :: [s; s0; s1; s2; s3; s4; s5; s6; s7; s8]))
    as Hall by (intros; now constructor).
  rewrite !read_grid_info_lines by now apply Hall.
  split; [reflexivity |].
  cbn [removelast List.last].
  rewrite read_grid_info_lines_open by now apply Hall. reflexivity.
Qed.

Lemma read_grid_info_ten_lines_witness :
  read_grid_info (Some (text ("# any first line" :: Sample.value_lines) "and more"))
  = Value Example.info.
Proof.
  assert (Forall (fun l => mem LF l = false) Sample.value_lines) as H
    by (repeat constructor).
  rewrite (proj1 (read_grid_info_ten_lines "# any first line" "---" "and more" ""
                    Sample.value_lines eq_refl eq_refl eq_refl H)).
  vm_compute. reflexivity.
Defined.

Lemma parse_value_blank {T : Type} (extract : string -> option T) l :
  all_blank l = true -> size l < npos -> parse_value extract l = OutOfRange.
Proof.
  intros Hb Hs. unfold parse_value. apply parse_param_blank.
  - now rewrite (getline_last _ (mem_LF_all_blank _ Hb)).
  - now rewrite (getline_last _ (mem_LF_all_blank _ Hb)).
Qed.

(** X6: blank lines are not skipped. When one of the ten lines after
    the first is empty or made of blanks, the loader throws, whatever the
    other lines are. *)
Theorem read_grid_info_blank_line (h rest : string) (ls : list string) (k : nat) (l : string) :
  length ls = 10%nat ->
  mem LF h = false ->
  Forall (fun l => mem LF l = false) ls ->
  ls !! k = Some l ->
  all_blank l = true ->
  size l < npos ->
  read_grid_info (Some (text (h :: ls) rest)) = OutOfRange.
Proof.
  intros Hlen Hh Hls Hk Hb Hs.
  do 10 (destruct ls as [|? ls]; [discriminate Hlen |]).
  destruct ls; [| discriminate Hlen].
  rewrite read_grid_info_lines by now constructor.
  pose proof (parse_value_blank Extract.int l Hb Hs) as Hi.
  pose proof (parse_value_blank Extract.double l Hb Hs) as Hd.
  unfold fields_in_order.
  do 10 (destruct k as [|k];
         [injection Hk as ->; rewrite ?Hi, ?Hd, store_throw; reflexivity |]).
  discriminate Hk.
Qed.

Lemma read_grid_info_blank_line_witness :
  read_grid_info (Some (text ("---" :: Sample.gapped_lines) "")) = OutOfRange.
Proof.
  apply (read_grid_info_blank_line "---" "" Sample.gapped_lines 3 "").
  - reflexivity.
  - reflexivity.
  - repeat constructor.
  - reflexivity.
  - reflexivity.
  - vm_compute. reflexivity.
Defined.

End LoaderMore.

(** ** More on the driver *)

Module DriverMore.
Import Driver.

Lemma calls_log line w : calls (log line w) = calls w.
Proof. reflexivity. Qed.

Lemma files_log line w : files (log line w) = files w.
Proof. reflexivity. Qed.

Lemma import_succeeds_log bem line w :
  import_succeeds bem (log line w) <-> import_succeeds bem w.
Proof. reflexivity. Qed.

(** X7: an index that is no electrode of the world is not refused. For
    [i < 0] or [i >= 2 * num_electrodes + 2] the pass sets every
    electrode to 0 and writes the potential of that configuration. *)
Theorem sampling_pass_index_out_of_range bem info i name w :
  in_int (num_electrodes info + i) ->
  in_int (2 * num_electrodes info + 2) ->
  import_succeeds bem w ->
  i < 0 \/ 2 * num_electrodes info + 2 <= i ->
  let w' := compute_potential bem (activation info i) info (Some name) w in
  calls w'
  = (calls w ++ build_and_solve info
     ++ ((fun j => SetVoltage (string_of_int j) 0) <$> seqZ 0 (2 * num_electrodes info + 2))
     ++ [SetVoltage "GROUND" 0])%list
  /\ files w' = <[name := grid_values (calc_slow bem (calls w')) info]> (files w).
Proof.
  intros Hi Ht Himp Hout w'.
  destruct (compute_potential_sampling bem _ info name w Himp
              (DriverClaims.activation_nonempty info i)) as [Hc Hf].
  fold w' in Hc, Hf. rewrite <- Hc in Hf. split; [| exact Hf].
  rewrite Hc. unfold set_voltages, total_electrodes. rewrite (wrap_int_small _ Ht).
  do 3 f_equal. apply list_fmap_ext. intros k j Hk. f_equal.
  apply lookup_seqZ in Hk as [-> Hk].
  rewrite decide_False; [reflexivity |].
  rewrite (DriverClaims.elem_of_activation info i _ Hi). lia.
Qed.

Lemma sampling_pass_index_out_of_range_witness :
  List.filter is_set_voltage
    (calls (compute_potential Example.ideal (activation Example.info 8) Example.info
              (Some "field8.txt") Example.w0))
  = [SetVoltage "0" 0; SetVoltage "1" 0; SetVoltage "2" 0; SetVoltage "3" 0;
     SetVoltage "4" 0; SetVoltage "5" 0; SetVoltage "6" 0; SetVoltage "7" 0;
     SetVoltage "GROUND" 0].
Proof.
  assert (in_int (num_electrodes Example.info + 8)) as H1
    by (unfold in_int, Extract.INT_MIN, Extract.INT_MAX; simpl; lia).
  assert (in_int (2 * num_electrodes Example.info + 2)) as H2
    by (unfold in_int, Extract.INT_MIN, Extract.INT_MAX; simpl; lia).
  assert (import_succeeds Example.ideal Example.w0) as H3 by reflexivity.
  assert (8 < 0 \/ 2 * num_electrodes Example.info + 2 <= 8) as H4 by (simpl; lia).
  destruct (sampling_pass_index_out_of_range Example.ideal Example.info 8 "field8.txt"
              Example.w0 H1 H2 H3 H4) as [-> _].
  vm_compute. reflexivity.
Defined.

Lemma bind_nil_all {A B} (l : list A) : l ≫= (fun _ => @nil B) = [].
Proof. induction l as [|x l IH]; [reflexivity |]. now rewrite bind_cons, IH. Qed.

Lemma grid_values_empty phi info :
  dimx info <= 0 \/ dimy info <= 0 \/ dimz info <= 0 -> grid_values phi info = [].
Proof.
  unfold grid_values. intros [H | [H | H]].
  - rewrite (seqZ_nil 0 (dimx info)) by exact H. reflexivity.
  - rewrite (seqZ_nil 0 (dimy info)) by exact H. apply bind_nil_all.
  - rewrite (seqZ_nil 0 (dimz info)) by exact H.
    erewrite list_bind_ext; [apply bind_nil_all | | reflexivity].
    intros i. apply bind_nil_all.
Qed.

(** X8: a dimension that is zero or negative is not refused. The
    pass still builds and solves the world and sets the voltages, and it
    leaves an output file with no line in it. *)
Theorem sampling_pass_empty_grid bem electrodes info name w :
  import_succeeds bem w ->
  electrodes <> ∅ ->
  dimx info <= 0 \/ dimy info <= 0 \/ dimz info <= 0 ->
  let w' := compute_potential bem electrodes info (Some name) w in
  calls w' = (calls w ++ build_and_solve info ++ set_voltages electrodes info)%list
  /\ files w' = <[name := []]> (files w).
Proof.
  intros Himp Hne Hdim w'.
  destruct (compute_potential_sampling bem electrodes info name w Himp Hne) as [Hc Hf].
  split; [exact Hc |]. fold w' in Hf. rewrite Hf. now rewrite grid_values_empty.
Qed.

Lemma sampling_pass_empty_grid_witness :
  files (compute_potential Example.ideal {[ 1; 4 ]}
           {| num_electrodes := 3; dimx := 2; dimy := 0; dimz := 2;
              startx := 0; endx := 1; starty := 0; endy := 1; startz := 0; endz := 1 |}
           (Some "field1.txt") Example.w0)
  = {[ "field1.txt" := [] ]}.
Proof.
  assert (import_succeeds Example.ideal Example.w0) as H1 by reflexivity.
  assert (({[ 1; 4 ]} : gset Z) <> ∅) as H2 by set_solver.
  refine (proj2 (sampling_pass_empty_grid Example.ideal {[ 1; 4 ]} _ "field1.txt"
                   Example.w0 H1 H2 _)).
  simpl. lia.
Defined.

(** *** An axis of one point *)

Lemma is_nan_spec x : Prim2SF x = S754_nan -> is_nan x = true.
Proof. intros H. unfold is_nan. now rewrite FloatAxioms.eqb_spec, H. Qed.

(** With [dim = 1] the step is a division by zero, and zero times
    that step is not a number. *)
Lemma coordinate_one_point start stop : is_nan (coordinate start stop 1 0) = true.
Proof.
  apply is_nan_spec. unfold coordinate.
  change (double_of_int (wrap_int (1 - 1))) with 0%float.
  change (double_of_int 0) with 0%float.
  rewrite FloatAxioms.add_spec, FloatAxioms.mul_spec, FloatAxioms.div_spec.
  change (Prim2SF 0) with (S754_zero false).
  destruct (Prim2SF (stop - start)) as [s | s | | s m e];
    destruct (Prim2SF start) as [s' | s' | | s' m' e']; reflexivity.
Qed.

(** X9: an axis with a single point is sampled at no point of it. With
    [dimx = 1] the pass still writes [dimy * dimz] values, each the
    potential at an X coordinate that is NaN, whatever [startx] and
    [endx] are. *)
Theorem sampling_pass_single_point bem electrodes info name w :
  import_succeeds bem w ->
  electrodes <> ∅ ->
  dimx info = 1 ->
  let w' := compute_potential bem electrodes info (Some name) w in
  let x0 := coordinate (startx info) (endx info) (dimx info) 0 in
  is_nan x0 = true
  /\ files w'
     = <[name := j ← seqZ 0 (dimy info);
                 k ← seqZ 0 (dimz info);
                 [calc_slow bem (calls w') x0
                    (coordinate (starty info) (endy info) (dimy info) j)
                    (coordinate (startz info) (endz info) (dimz info) k)]]> (files w).
Proof.
  intros Himp Hne Hdim w' x0.
  destruct (compute_potential_sampling bem electrodes info name w Himp Hne) as [Hc Hf].
  fold w' in Hc, Hf. rewrite <- Hc in Hf. split.
  - subst x0. rewrite Hdim. apply coordinate_one_point.
  - rewrite Hf. unfold grid_values. rewrite Hdim at 1.
    change (seqZ 0 1) with [0]. rewrite bind_singleton. reflexivity.
Qed.

Lemma sampling_pass_single_point_witness :
  is_nan (coordinate 0 1 1 0) = true.
Proof.
  assert (import_succeeds Example.ideal Example.w0) as H1 by reflexivity.
  assert (({[ 1; 4 ]} : gset Z) <> ∅) as H2 by set_solver.
  exact (proj1 (sampling_pass_single_point Example.ideal {[ 1; 4 ]}
                  {| num_electrodes := 3; dimx := 1; dimy := 2; dimz := 2;
                     startx := 0; endx := 1; starty := 0; endy := 1;
                     startz := 0; endz := 1 |}
                  "field1.txt" Example.w0 H1 H2 eq_refl)).
Defined.

(** *** One file for each index *)

Lemma string_app_inj_r (s t u : string) : s ++ u = t ++ u -> s = t.
Proof.
  intros H.
  assert (String.length s = String.length t) as Hlen.
  { apply (f_equal Str.size) in H. rewrite !StrFacts.size_app in H.
    unfold Str.size in H. lia. }
  revert t H Hlen. induction s as [|c s IH]; intros [|d t] H Hlen; try discriminate Hlen.
  - reflexivity.
  - rewrite !StrFacts.app_cons in H. injection H as -> H.
    f_equal. apply IH; [exact H |]. simpl in Hlen. lia.
Qed.

(** X10: no two indices share an output file: the name
    [field<i>.txt] determines [i]. *)
Theorem field_file_inj i j : field_file i = field_file j -> i = j.
Proof.
  unfold field_file, string_of_int. intros H.
  apply (inj (String.app FIELD_PREFIX)) in H.
  apply string_app_inj_r in H. now apply (inj pretty) in H.
Qed.

Lemma field_file_inj_witness : (12 : Z) = 12.
Proof. apply (field_file_inj 12 12). reflexivity. Defined.

(** The pass that the loop of [compute] makes for index [i]. *)
Lemma pass_effect bem info i w :
  (forall cs, Import_ok bem cs importfilename = true) ->
  let w' := compute_potential bem (activation info i) info (Some (field_file i))
              (log ("Starting on electrode " ++ string_of_int i) w) in
  solves (calls w') = (solves (calls w) + 1)%nat
  /\ files w' = <[field_file i := grid_values (calc_slow bem (calls w')) info]> (files w).
Proof.
  intros Himp w'.
  destruct (compute_potential_sampling bem (activation info i) info (field_file i)
              (log ("Starting on electrode " ++ string_of_int i) w))
    as [Hc Hf]; [apply Himp | apply DriverClaims.activation_nonempty |].
  fold w' in Hc, Hf. rewrite <- Hc in Hf. rewrite files_log in Hf. split; [| exact Hf].
  rewrite Hc, calls_log, !solves_app, solves_build_and_solve, solves_set_voltages. lia.
Qed.

Lemma run_effect bem info (l : list Z) w :
  (forall cs, Import_ok bem cs importfilename = true) ->
  let w' := foldl (fun w i =>
                     compute_potential bem (activation info i) info (Some (field_file i))
                       (log ("Starting on electrode " ++ string_of_int i) w)) w l in
  solves (calls w') = (solves (calls w) + length l)%nat
  /\ (forall i, i ∈ l ->
        exists cs, files w' !! field_file i = Some (grid_values (calc_slow bem cs) info))
  /\ (forall f, (forall i, i ∈ l -> f <> field_file i) -> files w' !! f = files w !! f).
Proof.
  intros Himp. induction l as [|x l IH] using rev_ind; intros w'.
  - subst w'. simpl. split; [lia |]. split; [| reflexivity].
    intros i Hi. now apply elem_of_nil in Hi.
  - subst w'. rewrite foldl_app. cbn [foldl].
    cbv zeta in IH. destruct IH as (IHs & IHin & IHout).
    set (w1 := foldl _ w l) in *.
    destruct (pass_effect bem info x w1 Himp) as [Hs Hf].
    set (w2 := compute_potential _ _ _ _ _) in *.
    split; [| split].
    + rewrite Hs, IHs, List.length_app. simpl. lia.
    + intros i Hi. rewrite Hf.
      destruct (decide (field_file x = field_file i)) as [Heq | Hneq].
      * rewrite Heq, lookup_insert_eq. eauto.
      * rewrite lookup_insert_ne by exact Hneq.
        apply elem_of_app in Hi as [Hi | Hi]; [now apply IHin |].
        apply list_elem_of_singleton in Hi. now subst.
    + intros f Hfresh. rewrite Hf, lookup_insert_ne.
      * apply IHout. intros i Hi. apply Hfresh, elem_of_app. now left.
      * intros Heq. apply (Hfresh x); [apply elem_of_app; right; now left | now symmetry].
Qed.

(** X11: a sampling call whose every layout import succeeds solves the
    world once for each index of [[start, stop)], leaves for each of them
    the file [field<i>.txt] with the potential on the whole grid, and
    touches no other file. *)
Theorem compute_sampling_run bem grid_txt info start stop w :
  read_grid_info grid_txt = Value info ->
  (forall cs, Import_ok bem cs importfilename = true) ->
  start < stop ->
  exists w',
    compute bem grid_txt start stop w = Returned w'
    /\ solves (calls w') = (solves (calls w) + Z.to_nat (stop - start))%nat
    /\ (forall i, start <= i < stop ->
          exists cs, files w' !! field_file i = Some (grid_values (calc_slow bem cs) info))
    /\ (forall f, (forall i, start <= i < stop -> f <> field_file i) ->
          files w' !! f = files w !! f).
Proof.
  intros Hinfo Himp Hlt.
  rewrite (compute_loaded _ _ _ _ _ _ Hinfo).
  destruct (Z.eqb_spec start stop) as [-> | _]; [lia |].
  eexists. split; [reflexivity |].
  unfold for_int.
  destruct (run_effect bem info (seqZ start (stop - start)) w Himp) as (Hs & Hin & Hout).
  split; [| split].
  - rewrite length_seqZ in Hs. exact Hs.
  - intros i Hi. apply Hin, elem_of_seqZ. lia.
  - intros f Hfresh. apply Hout. intros i Hi. apply Hfresh.
    apply elem_of_seqZ in Hi. lia.
Qed.

Lemma compute_sampling_run_witness :
  exists w',
    compute Example.ideal (Some Example.grid_txt) 0 3 Example.w0 = Returned w'
    /\ solves (calls w') = 3%nat.
Proof.
  destruct (compute_sampling_run Example.ideal (Some Example.grid_txt) Example.info 0 3
              Example.w0) as (w' & Hr & Hs & _).
  - vm_compute. reflexivity.
  - reflexivity.
  - lia.
  - exists w'. split; [exact Hr | exact Hs].
Defined.

(** *** Splitting a range *)

Lemma foldl_not_returned (body : Z -> world -> termination) (l : list Z) t :
  (forall w, t <> Returned w) ->
  foldl (fun t i => match t with Returned w => body i w | _ => t end) t l = t.
Proof.
  intros H. induction l as [|x l IH]; [reflexivity |].
  simpl. destruct t as [w | w |]; [now destruct (H w) | exact IH | exact IH].
Qed.

Lemma for_int_t_split lo mid hi body w :
  lo <= mid <= hi ->
  for_int_t lo hi body w
  = match for_int_t lo mid body w with
    | Returned w1 => for_int_t mid hi body w1
    | t => t
    end.
Proof.
  intros H. unfold for_int_t.
  replace (hi - lo) with ((mid - lo) + (hi - mid)) by lia.
  rewrite seqZ_app by lia. rewrite foldl_app.
  replace (lo + (mid - lo)) with mid by lia.
  destruct (foldl _ (Returned w) (seqZ lo (mid - lo))) as [w1 | w1 |].
  - reflexivity.
  - now apply foldl_not_returned.
  - now apply foldl_not_returned.
Qed.

(** X12: a range can be split. For [start < mid < stop] one call of
    [compute] on [[start, stop)] ends as a call on [[start, mid)] followed,
    when that one returns, by a call on [[mid, stop)] in the world it
    left. *)
Theorem compute_split bem grid_txt start mid stop w :
  start < mid < stop ->
  compute bem grid_txt start stop w
  = match compute bem grid_txt start mid w with
    | Returned w1 => compute bem grid_txt mid stop w1
    | t => t
    end.
Proof.
  intros H. unfold compute.
  destruct (Z.eqb_spec start stop) as [-> | _]; [lia |].
  destruct (Z.eqb_spec start mid) as [-> | _]; [lia |].
  destruct (Z.eqb_spec mid stop) as [-> | _]; [lia |].
  destruct (read_grid_info grid_txt) as [info | |].
  - rewrite (for_int_t_split start mid stop) by lia.
    now destruct (for_int_t start mid _ w).
  - rewrite (for_int_t_split start mid stop) by lia.
    now destruct (for_int_t start mid _ w).
  - reflexivity.
Qed.

Lemma compute_split_witness :
  compute Example.ideal (Some Example.grid_txt) 0 2 Example.w0
  = match compute Example.ideal (Some Example.grid_txt) 0 1 Example.w0 with
    | Returned w1 => compute Example.ideal (Some Example.grid_txt) 1 2 w1
    | t => t
    end.
Proof.
  apply (compute_split Example.ideal (Some Example.grid_txt) 0 1 2 Example.w0). lia.
Defined.

(** *** What the world is built from *)

(** X13: an electrode count of -1 or less is not refused. The pass
    then inserts GROUND alone, solves, and the only voltage it sets is
    that of GROUND. *)
Theorem sampling_pass_no_electrodes bem electrodes info name w :
  import_succeeds bem w ->
  electrodes <> ∅ ->
  in_int (2 * num_electrodes info + 2) ->
  num_electrodes info <= -1 ->
  calls (compute_potential bem electrodes info (Some name) w)
  = (calls w
     ++ [Load "libbemsolver"; Mkdir "gen.cache" 0x1ff; Import importfilename;
         NewWorld savedworldname 0.00001 32 6 6;
         Insert "GROUND"; Refine 100; CorrectNorm 0 0 0; Solve;
         SetVoltage "GROUND" 0])%list.
Proof.
  intros Himp Hne Ht Hn.
  destruct (compute_potential_sampling bem electrodes info name w Himp Hne) as [-> _].
  unfold build_and_solve, set_voltages, total_electrodes.
  rewrite (wrap_int_small _ Ht), seqZ_nil by lia. reflexivity.
Qed.

Lemma sampling_pass_no_electrodes_witness :
  solves (calls (compute_potential Example.ideal {[ 0 ]}
                   {| num_electrodes := -1; dimx := 2; dimy := 2; dimz := 2;
                      startx := 0; endx := 1; starty := 0; endy := 1;
                      startz := 0; endz := 1 |}
                   (Some "field0.txt") Example.w0)) = 1%nat.
Proof.
  assert (import_succeeds Example.ideal Example.w0) as H1 by reflexivity.
  assert (({[ 0 ]} : gset Z) <> ∅) as H2 by set_solver.
  rewrite (sampling_pass_no_electrodes Example.ideal {[ 0 ]} _ "field0.txt" Example.w0 H1 H2).
  - reflexivity.
  - unfold in_int, Extract.INT_MIN, Extract.INT_MAX. simpl. lia.
  - simpl. lia.
Defined.

(** X14: a pass with the empty set uses nothing of [info] but the
    electrode count. Two grids with the same [num_electrodes] are primed
    alike, whether the layout is imported or not. *)
Theorem priming_ignores_grid bem info info' outfile w :
  num_electrodes info = num_electrodes info' ->
  compute_potential bem ∅ info outfile w = compute_potential bem ∅ info' outfile w.
Proof.
  intros Hn.
  destruct (Import_ok bem (calls w ++ [Load "libbemsolver"; Mkdir "gen.cache" 0x1ff])
              importfilename) eqn:Himp.
  - rewrite !compute_potential_priming by exact Himp.
    unfold build_and_solve, total_electrodes. now rewrite Hn.
  - now rewrite !compute_potential_import_failed by exact Himp.
Qed.

Lemma priming_ignores_grid_witness :
  compute_potential Example.ideal ∅ Example.info None Example.w0
  = compute_potential Example.ideal ∅
      {| num_electrodes := 3; dimx := 50; dimy := 1; dimz := -4;
         startx := 5; endx := 1; starty := 0; endy := 0; startz := 2; endz := 9 |}
      None Example.w0.
Proof.
  apply (priming_ignores_grid Example.ideal Example.info _ None Example.w0). reflexivity.
Defined.

End DriverMore.
